(** * STaRK Amazon semi-structured knowledge base: a shallow embedding

    The development follows [src/benchmarks/semistruct/amazon.py]
    (class [AmazonSemiStruct]).  Python values are embedded as follows:

    - [str] is [string]; one [ascii] stands for one character, so the
      embedding covers text whose characters are single bytes;
    - [int] is [Z] where the sign matters ([max_entries], votes) and [nat]
      for lengths, loop indices and the dense ids derived from them;
    - a [dict] is a [gmap]; the dense [node_info] dictionary, whose keys are
      [0 .. n-1] inserted in increasing order, is the list of its values;
    - an exception is a value of [exn] carried by the [result] monad. *)

From Stdlib Require Import ZArith Ascii String.
From stdpp Require Import gmap strings list fin_maps pretty sorting.

#[local] Set Warnings "-register-all".
#[local] Open Scope Z_scope.

(** ** Python string primitives *)

Module Py.

Definition len (s : string) : nat := String.length s.

(** [c in chars] for a one-character [c]. *)
Definition mem (c : ascii) (cs : list ascii) : bool :=
  existsb (Ascii.eqb c) cs.

(** [s.lstrip(cs)] *)
Fixpoint lstrip (cs : list ascii) (s : string) : string :=
  match s with
  | EmptyString => EmptyString
  | String c s' => if mem c cs then lstrip cs s' else s
  end.

(** [s.rstrip(cs)] *)
Fixpoint rstrip (cs : list ascii) (s : string) : string :=
  match s with
  | EmptyString => EmptyString
  | String c s' =>
      match rstrip cs s' with
      | EmptyString => if mem c cs then EmptyString else String c EmptyString
      | r => String c r
      end
  end.

(** [s.strip(cs)] *)
Definition strip (cs : list ascii) (s : string) : string :=
  rstrip cs (lstrip cs s).

(** [s[:n]] *)
Definition slice_to (n : nat) (s : string) : string := substring 0 n s.

(** [s[n:]] *)
Definition slice_from (n : nat) (s : string) : string :=
  substring n (len s - n) s.

(** [s[-n:]] for a positive literal [n] *)
Definition slice_last (n : nat) (s : string) : string :=
  slice_from (len s - n) s.

(** [s[:-n]] for a positive literal [n] *)
Definition slice_but_last (n : nat) (s : string) : string :=
  slice_to (len s - n) s.

(** [s.split(sep)[0]] for a one-character separator *)
Fixpoint split_head (sep : ascii) (s : string) : string :=
  match s with
  | EmptyString => EmptyString
  | String c s' =>
      if Ascii.eqb c sep then EmptyString else String c (split_head sep s')
  end.

(** [c.lower()] on one character: only [A-Z] change. *)
Definition lower_char (c : ascii) : ascii :=
  let n := nat_of_ascii c in
  if ((65 <=? n)%nat && (n <=? 90)%nat)%bool then ascii_of_nat (n + 32) else c.

(** [s.lower()] *)
Fixpoint lower (s : string) : string :=
  match s with
  | EmptyString => EmptyString
  | String c s' => String (lower_char c) (lower s')
  end.

(** [sub in s] *)
Fixpoint contains (sub s : string) : bool :=
  if String.prefix sub s then true
  else match s with
       | EmptyString => false
       | String _ s' => contains sub s'
       end.

(** [s.replace(c, "")] for a one-character [c] *)
Fixpoint remove_char (c : ascii) (s : string) : string :=
  match s with
  | EmptyString => EmptyString
  | String d s' =>
      if Ascii.eqb d c then remove_char c s' else String d (remove_char c s')
  end.

(** [s.replace(a, b)] for one-character [a] and [b] *)
Fixpoint replace_char (a b : ascii) (s : string) : string :=
  match s with
  | EmptyString => EmptyString
  | String d s' =>
      String (if Ascii.eqb d a then b else d) (replace_char a b s')
  end.

(** [sep.join(l)] *)
Definition join (sep : string) (l : list string) : string :=
  String.concat sep l.

(** [s.split(sep)] for a non-empty separator: the pieces between the
    non-overlapping occurrences of [sep], scanned from the left.  [cur]
    holds the characters of the current piece in reverse and [skip] counts
    the characters of a matched separator still to be passed over. *)
Fixpoint split_go (sep : string) (skip : nat) (cur : string) (s : string)
  : list string :=
  match s with
  | EmptyString => [String.rev cur]
  | String c s' =>
      match skip with
      | S k => split_go sep k cur s'
      | O =>
          if String.prefix sep s
          then String.rev cur :: split_go sep (String.length sep - 1) EmptyString s'
          else split_go sep 0 (String c cur) s'
      end
  end.

Definition split (sep : string) (s : string) : list string :=
  split_go sep 0 EmptyString s.

End Py.

(** ** Brand normalisation: [_process_brand] *)

(** The argument of [brand.strip(...)] at line 524: space, double quote,
    [. * + , - _ ! @ # $ % ^ & * ( ) ;], backslash, [/ | < > '], tab,
    newline, carriage return, backslash. *)
Definition STRIP_CHARS : list ascii :=
  [" "; "034"; "."; "*"; "+"; ","; "-"; "_"; "!"; "@"; "#"; "$"; "%"; "^";
   "&"; "*"; "("; ")"; ";"; "\"; "/"; "|"; "<"; ">"; "'"; "009"; "010";
   "013"; "\"]%char.

Definition _process_brand (brand : string) : string :=
  let brand := Py.strip STRIP_CHARS brand in
  let brand :=
    if ((3 <? Py.len brand)%nat && String.eqb (Py.slice_to 3 brand) "by ")%bool
    then Py.slice_from 3 brand else brand in
  let brand :=
    if ((4 <? Py.len brand)%nat && String.eqb (Py.slice_last 4 brand) ".com")%bool
    then Py.slice_but_last 4 brand else brand in
  let brand :=
    if ((4 <? Py.len brand)%nat && String.eqb (Py.slice_to 4 brand) "www.")%bool
    then Py.slice_from 4 brand else brand in
  if (100 <? Py.len brand)%nat then Py.split_head " " brand else brand.

(** The reference definition of brand normalisation, written from its
    five documented steps over the characters of the string:
    strip the punctuation and white space set at both ends; drop a leading
    ["by "] when the length exceeds 3; drop a trailing [".com"] when the
    length exceeds 4; drop a leading ["www."] when the length exceeds 4;
    past 100 characters keep the first space-delimited token. *)
Fixpoint drop_while (P : ascii → bool) (l : list ascii) : list ascii :=
  match l with
  | [] => []
  | c :: l' => if P c then drop_while P l' else l
  end.

Fixpoint take_until (P : ascii → bool) (l : list ascii) : list ascii :=
  match l with
  | [] => []
  | c :: l' => if P c then [] else c :: take_until P l'
  end.

Definition trim (P : ascii → bool) (l : list ascii) : list ascii :=
  reverse (drop_while P (reverse (drop_while P l))).

Definition normalize_brand (s : string) : string :=
  let in_set c := bool_decide (c ∈ STRIP_CHARS) in
  let l := trim in_set (list_ascii_of_string s) in
  let l :=
    if bool_decide (list_ascii_of_string "by " `prefix_of` l ∧ (3 < length l)%nat)
    then drop 3 l else l in
  let l :=
    if bool_decide (list_ascii_of_string ".com" `suffix_of` l ∧ (4 < length l)%nat)
    then take (length l - 4) l else l in
  let l :=
    if bool_decide (list_ascii_of_string "www." `prefix_of` l ∧ (4 < length l)%nat)
    then drop 4 l else l in
  string_of_list_ascii
    (if bool_decide (100 < length l)%nat
     then take_until (λ c, bool_decide (c = " "%char)) l else l).

(** The first and the last character of a string, if it has one. *)
Definition first_char (s : string) : option ascii :=
  match s with
  | EmptyString => None
  | String c _ => Some c
  end.

Fixpoint last_char (s : string) : option ascii :=
  match s with
  | EmptyString => None
  | String c EmptyString => Some c
  | String _ s' => last_char s'
  end.

Definition outside (cs : list ascii) (c : option ascii) : bool :=
  match c with
  | Some c => negb (Py.mem c cs)
  | None => true
  end.

(** A brand on which no step of [_process_brand] has anything to do. *)
Definition brand_stable (r : string) : bool :=
  outside STRIP_CHARS (first_char r) && outside STRIP_CHARS (last_char r) &&
  negb ((3 <? Py.len r)%nat && String.eqb (Py.slice_to 3 r) "by ") &&
  negb ((4 <? Py.len r)%nat && String.eqb (Py.slice_last 4 r) ".com") &&
  negb ((4 <? Py.len r)%nat && String.eqb (Py.slice_to 4 r) "www.") &&
  ((Py.len r <=? 100)%nat || negb (Py.contains " " r)).

(** ** Exceptions and the two monads

    [result] carries a raised exception; [SR S] also threads a mutable
    state [S] (the object [self], or the file system and network), which
    keeps the effects performed before an exception was raised. *)

Inductive exn :=
| AttributeError
| KeyError
| TypeError
| ValueError
| IndexError
| UnboundLocalError
| AssertionError (msg : string).

Inductive result (A : Type) :=
| Ok (a : A)
| Raise (e : exn).
Arguments Ok {A} a.
Arguments Raise {A} e.

Definition result_bind {A B : Type} (m : result A) (k : A → result B) : result B :=
  match m with
  | Ok a => k a
  | Raise e => Raise e
  end.

Definition SR (S A : Type) : Type := S → result A * S.

Definition sr_ret {S A : Type} (a : A) : SR S A := λ s, (Ok a, s).

Definition sr_bind {S A B : Type} (m : SR S A) (k : A → SR S B) : SR S B :=
  λ s, match m s with
       | (Ok a, s') => k a s'
       | (Raise e, s') => (Raise e, s')
       end.

Definition sr_lift {S A : Type} (r : result A) : SR S A := λ s, (r, s).

Definition sr_get {S : Type} : SR S S := λ s, (Ok s, s).

Definition sr_put {S : Type} (s : S) : SR S unit := λ _, (Ok tt, s).

(** [try: m  except: pass] with a bare [except]: every exception is
    swallowed and the state reached when it was raised is kept. *)
Definition sr_try_pass {S : Type} (m : SR S unit) : SR S unit :=
  λ s, match m s with
       | (_, s') => (Ok tt, s')
       end.

Declare Scope result_scope.
Delimit Scope result_scope with result.
Declare Scope sr_scope.
Delimit Scope sr_scope with sr.

Notation "'let?' x := m 'in' k" := (result_bind m (λ x, k))
  (at level 10, x pattern, m at level 100, k at level 200) : result_scope.
Notation "'let!' x := m 'in' k" := (sr_bind m (λ x, k))
  (at level 10, x pattern, m at level 100, k at level 200) : sr_scope.

(** [for x in l: body] in either monad, and the list comprehension
    [[f(x) for x in l]] with a fallible [f]. *)
Fixpoint result_map {A B : Type} (f : A → result B) (l : list A) : result (list B) :=
  match l with
  | [] => Ok []
  | x :: l' =>
      (let? y := f x in
       let? ys := result_map f l' in
       Ok (y :: ys))%result
  end.

Fixpoint sr_for {S A : Type} (l : list A) (body : A → SR S unit) : SR S unit :=
  match l with
  | [] => sr_ret tt
  | x :: l' => (let! _ := body x in sr_for l' body)%sr
  end.

(** ** Values held by node records

    The shapes of the data model: a null marker ([None] or [NaN]), a
    string, a list of strings, a list of review or Q&A records (one cell
    per declared column, each null or a string) and a nested object, which
    is what [details] must be for [node.details.dictionary] to resolve. *)

Inductive value :=
| VNull
| VStr (s : string)
| VStrs (l : list string)
| VRecs (l : list (gmap string (option string)))
| VObj (d : gmap string value).

(** One character of line feed, [nl], and the double quote, [dq]. *)
Definition nl : string := String "010" EmptyString.
Definition dq : string := String "034" EmptyString.

(** ** Python builtins on strings and values *)

(** The white space [int()] skips at both ends of its argument: tab,
    line feed, vertical tab, form feed, carriage return and space, and
    the two white space characters above 127, next line (133) and
    no-break space (160).  The separators 28 to 31 are not skipped. *)
Definition INT_SPACE : list ascii :=
  ["009"; "010"; "011"; "012"; "013"; " "; "133"; "160"]%char.

Definition digit_of (c : ascii) : option Z :=
  let n := nat_of_ascii c in
  if ((48 <=? n)%nat && (n <=? 57)%nat)%bool then Some (Z.of_nat (n - 48)) else None.

Inductive int_state := IntStart | IntDigit | IntUnderscore.

(** Decimal digits, where single underscores may separate digits. *)
Fixpoint int_digits (st : int_state) (acc : Z) (s : string) : option Z :=
  match s with
  | EmptyString => match st with IntDigit => Some acc | _ => None end
  | String c s' =>
      match digit_of c with
      | Some d => int_digits IntDigit (10 * acc + d) s'
      | None =>
          if Ascii.eqb c "_"
          then match st with
               | IntDigit => int_digits IntUnderscore acc s'
               | _ => None
               end
          else None
      end
  end.

(** The number of digits of a literal, leading zeros included and
    underscores left out, and the most [int()] converts: the default of
    [sys.get_int_max_str_digits()]. *)
Definition count_digits (s : string) : nat :=
  length (filter (λ c, is_Some (digit_of c)) (list_ascii_of_string s)).

Definition INT_MAX_STR_DIGITS : nat := 4300.

(** [int(s)] for a string [s]: [ValueError] unless [s] is an optionally
    signed decimal literal of at most 4300 digits, possibly surrounded by
    white space. *)
Definition py_int (s : string) : result Z :=
  let t := Py.strip INT_SPACE s in
  let r :=
    match t with
    | String "+" t' => int_digits IntStart 0 t'
    | String "-" t' => Z.opp <$> int_digits IntStart 0 t'
    | _ => int_digits IntStart 0 t
    end in
  match r with
  | Some z => if (count_digits t <=? INT_MAX_STR_DIGITS)%nat then Ok z else Raise ValueError
  | None => Raise ValueError
  end.

(** [str(n)] for a non-negative integer. *)
Definition str_nat (n : nat) : string := pretty n.

(** A stable argsort by insertion: the indices of [a] in increasing
    order of value, equal values in their original order.  This is one of
    the orders [np.argsort] may return, and the only one when the values
    are distinct; it serves in the examples. *)
Fixpoint insert_rank (x : Z * nat) (l : list (Z * nat)) : list (Z * nat) :=
  match l with
  | [] => [x]
  | y :: l' => if x.1 <=? y.1 then x :: l else y :: insert_rank x l'
  end.

Definition stable_argsort (a : list Z) : list nat :=
  (foldr insert_rank [] (imap (λ i v, (v, i)) a)).*2.

Definition stable_argsort_neg (scores : list Z) : list nat :=
  stable_argsort (Z.opp <$> scores).

(** [len(v)] *)
Definition py_len (v : value) : result nat :=
  match v with
  | VStr s => Ok (Py.len s)
  | VStrs l => Ok (length l)
  | VRecs l => Ok (length l)
  | VNull | VObj _ => Raise TypeError
  end.

(** [" ".join(v)]: every item of [v] must be a string; the items of a
    string are its characters. *)
Definition join_items (v : value) : result string :=
  match v with
  | VStr s => Ok (Py.join " " ((λ c, String c EmptyString) <$> list_ascii_of_string s))
  | VStrs l => Ok (Py.join " " l)
  | VRecs [] => Ok EmptyString
  | VRecs (_ :: _) | VNull | VObj _ => Raise TypeError
  end.

(** The items of [for feature in v] in the feature loops.  An item that
    is a record is not equal to the empty string and has no [lower]
    method, so the first one raises [AttributeError]. *)
Definition feature_items (v : value) : result (list string) :=
  match v with
  | VStr s => Ok ((λ c, String c EmptyString) <$> list_ascii_of_string s)
  | VStrs l => Ok l
  | VRecs [] => Ok []
  | VRecs (_ :: _) => Raise AttributeError
  | VNull | VObj _ => Raise TypeError
  end.

(** The items of [for review in v] in the review and Q&A loops, each of
    which is subscripted by a column name: a string item raises
    [TypeError]. *)
Definition record_items (v : value) : result (list (gmap string (option string))) :=
  match v with
  | VRecs l => Ok l
  | VStr EmptyString | VStrs [] => Ok []
  | VStr _ | VStrs _ | VNull | VObj _ => Raise TypeError
  end.

(** [record[column]] *)
Definition record_get (r : gmap string (option string)) (column : string)
  : result (option string) :=
  match r !! column with
  | Some c => Ok c
  | None => Raise KeyError
  end.

(** [hasattr(node, name)] and [node.name] on a node object, whose
    attributes are a dictionary from names to values. *)
Definition hasattr (node : gmap string value) (name : string) : bool :=
  bool_decide (is_Some (node !! name)).

Definition getattr (node : gmap string value) (name : string) : result value :=
  match node !! name with
  | Some v => Ok v
  | None => Raise AttributeError
  end.

(** [v.name] on an attribute value: only a nested object has attributes
    of the names the source asks for. *)
Definition getattr_value (v : value) (name : string) : result value :=
  match v with
  | VObj d => getattr d name
  | _ => Raise AttributeError
  end.

(** [dimensions, weight = node.details.dictionary.product_dimensions.split(" ; ")],
    lines 202 and 268.  Both callers swallow every exception it raises. *)
Definition product_dimensions (node : gmap string value) : result (string * string) :=
  (let? details := getattr node "details" in
   let? dictionary := getattr_value details "dictionary" in
   let? dims := getattr_value dictionary "product_dimensions" in
   let? parts :=
     match dims with
     | VStr s => Ok (Py.split " ; " s)
     | _ => Raise AttributeError
     end in
   match parts with
   | [dimensions; weight] => Ok (dimensions, weight)
   | _ => Raise ValueError
   end)%result.

(** ** The graph bundle and the knowledge base object *)

(** The bundle [processed_data] / [raw_info] / [files]: a dictionary with
    the six keys below.  [node_info] is the dense dictionary of node
    records, [edge_index] the two parallel lists of source and destination
    ids, [node_types] and [edge_types] the type id of every node and
    edge. *)
Record processed_data := {
  node_info : list (gmap string value);
  edge_index : list nat * list nat;
  edge_types : list nat;
  edge_type_dict : gmap nat string;
  node_type_dict : gmap nat string;
  node_types : list nat;
}.

(** The fields of [self] the rendering methods read: the bundle handed
    to the constructor of the base class, [max_entries], and the method
    [get_neighbor_nodes] inherited from [SemiStructureKB], whose source
    file is missing, so it is taken as given. *)
Record KB := {
  data : processed_data;
  max_entries : Z;
  get_neighbor_nodes : Z → string → list Z;
}.

Definition set_node_info (ni : list (gmap string value)) (d : processed_data)
  : processed_data :=
  {| node_info := ni; edge_index := edge_index d; edge_types := edge_types d;
     edge_type_dict := edge_type_dict d; node_type_dict := node_type_dict d;
     node_types := node_types d |}.

(** [self.node_info[idx]]: a dictionary lookup, so a negative key is
    absent like any other unknown key. *)
Definition node_info_get (ni : list (gmap string value)) (idx : Z)
  : result (gmap string value) :=
  if idx <? 0 then Raise KeyError
  else match ni !! Z.to_nat idx with
       | Some r => Ok r
       | None => Raise KeyError
       end.

(** [node_info[idx] = r] on the same dictionary, for a key already there. *)
Definition node_info_set (idx : Z) (r : gmap string value) : SR KB unit :=
  λ self,
    (Ok tt,
     {| data := set_node_info (<[Z.to_nat idx := r]> (node_info (data self))) (data self);
        max_entries := max_entries self;
        get_neighbor_nodes := get_neighbor_nodes self |}).

(** [self.node_types[idx]]: tensor indexing, where a negative index
    counts from the end. *)
Definition node_types_get (nt : list nat) (idx : Z) : result nat :=
  let n := Z.of_nat (length nt) in
  let i := if idx <? 0 then idx + n else idx in
  if ((0 <=? i) && (i <? n))%bool
  then match nt !! Z.to_nat i with
       | Some t => Ok t
       | None => Raise IndexError
       end
  else Raise IndexError.

(** [self.node_type_dict[t]] *)
Definition node_type_dict_get (d : gmap nat string) (t : nat) : result string :=
  match d !! t with
  | Some label => Ok label
  | None => Raise KeyError
  end.

(** Reading a local variable of a function body before its first
    assignment raises [UnboundLocalError]. *)
Definition read_local {A : Type} (x : option A) : result A :=
  match x with
  | Some a => Ok a
  | None => Raise UnboundLocalError
  end.

(** Modelled from the spec: [Node] and [register_node] of [src/tools/node.py]
    are missing.  A node object is the dictionary of its attributes, a new
    [Node()] has none, and [register_node(node, info)] sets one attribute
    per key of the node record [info], which is how the spec describes the
    ad hoc node objects read with [getattr] and [hasattr]. *)
Definition Node : gmap string value := ∅.

Definition register_node (node info : gmap string value) : gmap string value :=
  info ∪ node.

(** The body of the [try] block of [__getitem__], lines 202-203, run
    with the local name [node] bound or not; [info] is the dictionary
    [self.node_info[idx]], which the block updates in place. *)
Definition getitem_try_body (node : option (gmap string value)) (idx : Z)
    (info : gmap string value) : SR KB unit :=
  (let! n := sr_lift (read_local node) in
   let! (dimensions, weight) := sr_lift (product_dimensions n) in
   node_info_set idx
     (<["weight" := VStr weight]> (<["dimensions" := VStr dimensions]> info)))%sr.

(** [__getitem__], lines 198-208.  The [try] block reads the local name
    [node], which is assigned only after the block. *)
Definition __getitem__ (idx : Z) : SR KB (gmap string value) :=
  (let! self := sr_get in
   let! info := sr_lift (node_info_get (node_info (data self)) idx) in
   let node : option (gmap string value) := None in
   let! _ := sr_try_pass (getitem_try_body node idx info) in
   let! self := sr_get in
   let! info := sr_lift (node_info_get (node_info (data self)) idx) in
   let node := Node in
   sr_ret (register_node node info))%sr.

(** The loop shared by the four review and Q&A renderers:
    [[
      for i, x in enumerate(l):
          text += render(i, x)
          if i > self.max_entries:
              break
    ]]
    started at index [i]. *)
Fixpoint capped_loop {A : Type} (max_entries : Z) (render : nat → A → result string)
    (i : nat) (l : list A) (text : string) : result string :=
  match l with
  | [] => Ok text
  | x :: l' =>
      (let? entry := render i x in
       let text := text +:+ entry in
       if Z.of_nat i >? max_entries then Ok text
       else capped_loop max_entries render (S i) l' text)%result
  end.

(** [0 if pd.isnull(review["vote"]) else int(review["vote"].replace(",", ""))] *)
Definition vote_score (review : gmap string (option string)) : result Z :=
  (let? vote := record_get review "vote" in
   match vote with
   | None => Ok 0
   | Some s => py_int (Py.remove_char "," s)
   end)%result.

(** The feature loop of [get_doc_info], lines 279-284. *)
Fixpoint doc_feature_loop (feature_idx : nat) (l : list string) (feature_text : string)
  : string :=
  match l with
  | [] => feature_text
  | feature :: l' =>
      if String.eqb feature EmptyString
      then doc_feature_loop (S feature_idx) l' feature_text
      else if Py.contains "asin" (Py.lower feature)
      then doc_feature_loop (S feature_idx) l' feature_text
      else doc_feature_loop (S feature_idx) l'
             (feature_text +:+ "#" +:+ str_nat (feature_idx + 1) +:+ ": " +:+ feature +:+ nl)
  end.

(** The feature loop of [get_chunk_info], lines 218-223. *)
Fixpoint chunk_feature_loop (l : list string) (features : list string) : list string :=
  match l with
  | [] => features
  | feature :: l' =>
      if String.eqb feature EmptyString
      then chunk_feature_loop l' features
      else if Py.contains "asin" (Py.lower feature)
      then chunk_feature_loop l' features
      else chunk_feature_loop l' (features ++ [feature])
  end.

Section Rendering.

(** [str(v)] on a value that is not a string is Python's own rendering of
    it ([repr] of a list, [None], [nan], ...), and [compact_text] comes
    from [src/tools/process_text.py]; both are taken as given. *)
Variable py_repr : value → string.
Variable compact_text : string → string.

(** [np.argsort(-np.array(scores))], lines 235 and 294, is NumPy's: the
    type of the array the scores make, the negation in that type and the
    sort, whose default kind does not keep equal values in their order
    and differs between versions and machines, are taken as given, as the
    function [argsort_neg] of the scores.  All the code needs of it is
    that it returns the positions of the array, each once ([ranks_ok]
    below). *)
Variable argsort_neg : list Z → list nat.

(** [scores] and [ranks], lines 229-235 and 290-294, for the reviews
    [l]. *)
Definition review_ranks (l : list (gmap string (option string))) : result (list nat) :=
  (let? scores := result_map vote_score l in
   Ok (argsort_neg scores))%result.

(** [str(v)], also what an f-string does with [{v}]. *)
Definition py_str (v : value) : string :=
  match v with
  | VStr s => s
  | _ => py_repr v
  end.

Definition cell_str (c : option string) : string :=
  match c with
  | Some s => s
  | None => py_repr VNull
  end.

(** ["..." + v + "..."]: concatenation accepts only a string. *)
Definition as_str (v : value) : result string :=
  match v with
  | VStr s => Ok s
  | _ => Raise TypeError
  end.

(** One entry of the reviews section, lines 296-301. *)
Definition doc_review_entry (reviews : list (gmap string (option string)))
    (i review_idx : nat) : result string :=
  (let? review :=
     match reviews !! review_idx with
     | Some r => Ok r
     | None => Raise IndexError
     end in
   let? summary := record_get review "summary" in
   let? reviewText := record_get review "reviewText" in
   Ok ("#" +:+ str_nat (review_idx + 1) +:+ ":" +:+ nl +:+
       "summary: " +:+ cell_str summary +:+ nl +:+
       "text: " +:+ dq +:+ cell_str reviewText +:+ dq +:+ nl))%result.

(** One entry of the Q&A section, lines 310-314. *)
Definition doc_qa_entry (qa_idx : nat) (qa : gmap string (option string))
  : result string :=
  (let? question := record_get qa "question" in
   let? answer := record_get qa "answer" in
   Ok ("#" +:+ str_nat (qa_idx + 1) +:+ ":" +:+ nl +:+
       "question: " +:+ dq +:+ cell_str question +:+ dq +:+ nl +:+
       "answer: " +:+ dq +:+ cell_str answer +:+ dq +:+ nl))%result.

(** One entry of the review chunk, lines 237-239. *)
Definition chunk_review_entry (reviews : list (gmap string (option string)))
    (i review_idx : nat) : result string :=
  (let? review :=
     match reviews !! review_idx with
     | Some r => Ok r
     | None => Raise IndexError
     end in
   let? summary := record_get review "summary" in
   let? reviewText := record_get review "reviewText" in
   Ok ("The review " +:+ dq +:+ cell_str summary +:+ dq +:+
       "states that " +:+ dq +:+ cell_str reviewText +:+ dq +:+ ". "))%result.

(** One entry of the Q&A chunk, lines 247-248. *)
Definition chunk_qa_entry (i : nat) (question : gmap string (option string))
  : result string :=
  (let? q := record_get question "question" in
   let? a := record_get question "answer" in
   Ok ("The question is " +:+ dq +:+ cell_str q +:+ dq +:+ ", " +:+
       "and the answer is " +:+ dq +:+ cell_str a +:+ dq +:+ ". "))%result.

(** The features section of [get_doc_info], lines 277-286. *)
Definition doc_feature_text (feature : value) : result string :=
  (let? n := py_len feature in
   if (n =? 0)%nat then Ok EmptyString
   else
     let? items := feature_items feature in
     Ok (doc_feature_loop 0 items ("- features: " +:+ nl)))%result.

(** The reviews section of [get_doc_info], lines 288-305. *)
Definition doc_review_text (max_entries : Z) (review : value) : result string :=
  (let? n := py_len review in
   if (n =? 0)%nat then Ok EmptyString
   else
     let? reviews := record_items review in
     let? ranks := review_ranks reviews in
     capped_loop max_entries (doc_review_entry reviews) 0 ranks
       ("- reviews: " +:+ nl))%result.

(** The Q&A section of [get_doc_info], lines 307-318. *)
Definition doc_qa_text (max_entries : Z) (qa : value) : result string :=
  (let? n := py_len qa in
   if (n =? 0)%nat then Ok EmptyString
   else
     let? qas := record_items qa in
     capped_loop max_entries doc_qa_entry 0 qas ("- Q&A: " +:+ nl))%result.

(** The description line of [get_doc_info], lines 272-275. *)
Definition doc_description_text (description : value) : result string :=
  (let? n := py_len description in
   if (n =? 0)%nat then Ok EmptyString
   else
     let? joined := join_items description in
     let description := Py.strip [" "%char] joined in
     if (0 <? Py.len description)%nat
     then Ok ("- description: " +:+ description +:+ nl)
     else Ok EmptyString)%result.

(** Lines 264-320 of [get_doc_info]: the document of a product node,
    before relations and compaction. *)
Definition product_doc (max_entries : Z) (node : gmap string value) : result string :=
  (let? title := getattr node "title" in
   let doc := "- product: " +:+ py_str title +:+ nl in
   let? doc :=
     if hasattr node "brand"
     then let? brand := getattr node "brand" in
          Ok (doc +:+ "- brand: " +:+ py_str brand +:+ nl)
     else Ok doc in
   let doc :=
     match product_dimensions node with
     | Ok (dimensions, weight) =>
         doc +:+ "- dimensions: " +:+ dimensions +:+ nl +:+
                 "- weight: " +:+ weight +:+ nl
     | Raise _ => doc
     end in
   let? description := getattr node "description" in
   let? description_text := doc_description_text description in
   let doc := doc +:+ description_text in
   let? feature := getattr node "feature" in
   let? feature_text := doc_feature_text feature in
   let? review := getattr node "review" in
   let? review_text := doc_review_text max_entries review in
   let? qa := getattr node "qa" in
   let? qa_text := doc_qa_text max_entries qa in
   Ok (doc +:+ feature_text +:+ review_text +:+ qa_text))%result.

(** [[f"#{idx + 1}: " + self[i].title + "\n" for idx, i in enumerate(l)]],
    lines 335-340, started at index [k]. *)
Fixpoint rel_titles (k : nat) (l : list Z) : SR KB (list string) :=
  match l with
  | [] => sr_ret []
  | i :: l' =>
      (let! node := __getitem__ i in
       let! title := sr_lift (getattr node "title") in
       let! title := sr_lift (as_str title) in
       let! rest := rel_titles (S k) l' in
       sr_ret (("#" +:+ str_nat (k + 1) +:+ ": " +:+ title +:+ nl) :: rest))%sr
  end.

(** [get_rel_info], lines 328-362, with its default arguments.  The
    call [self.rel_type_lst()] of line 330, whose result the method never
    reads, is left out. *)
Definition get_rel_info (idx : Z) : SR KB string :=
  (let! self := sr_get in
   let n_also_buy := get_neighbor_nodes self idx "also_buy" in
   let n_also_view := get_neighbor_nodes self idx "also_view" in
   let n_has_brand := get_neighbor_nodes self idx "has_brand" in
   let! str_also_buy := rel_titles 0 n_also_buy in
   let! str_also_view := rel_titles 0 n_also_view in
   let! str_has_brand :=
     match n_has_brand with
     | [] => sr_ret EmptyString
     | b :: _ =>
         let! node := __getitem__ b in
         let! brand_name := sr_lift (getattr node "brand_name") in
         sr_ret ("  brand: " +:+ py_str brand_name +:+ nl)
     end in
   let str_also_buy := Py.join EmptyString str_also_buy in
   let str_also_view := Py.join EmptyString str_also_view in
   let doc := EmptyString in
   let doc :=
     if (0 <? Py.len str_also_buy)%nat
     then doc +:+ "  products also purchased: " +:+ nl +:+ str_also_buy else doc in
   let doc :=
     if (0 <? Py.len str_also_view)%nat
     then doc +:+ "  products also viewed: " +:+ nl +:+ str_also_view else doc in
   let doc :=
     if (0 <? length n_has_brand)%nat then doc +:+ str_has_brand else doc in
   let doc :=
     if (0 <? Py.len doc)%nat then "- relations:" +:+ nl +:+ doc else doc in
   sr_ret doc)%sr.

(** [get_doc_info], lines 259-326. *)
Definition get_doc_info (idx : Z) (add_rel compact : bool) : SR KB string :=
  (let! self := sr_get in
   let! t := sr_lift (node_types_get (node_types (data self)) idx) in
   let! label := sr_lift (node_type_dict_get (node_type_dict (data self)) t) in
   if String.eqb label "brand"
   then
     let! node := __getitem__ idx in
     let! brand_name := sr_lift (getattr node "brand_name") in
     sr_ret ("brand name: " +:+ py_str brand_name)
   else
     let! node := __getitem__ idx in
     let! doc := sr_lift (product_doc (max_entries self) node) in
     let! doc :=
       if add_rel
       then let! rel := get_rel_info idx in sr_ret (doc +:+ rel)
       else sr_ret doc in
     let doc := if compact then compact_text doc else doc in
     sr_ret doc)%sr.

(** Lines 215-257 of [get_chunk_info]: the chunk of one attribute value. *)
Definition chunk_of (max_entries : Z) (attribute : string) (node_attr : value)
  : result value :=
  (if Py.contains "feature" attribute then
     let? n := py_len node_attr in
     let? features :=
       if (n =? 0)%nat then Ok []
       else let? items := feature_items node_attr in
            Ok (chunk_feature_loop items []) in
     Ok (VStr (Py.join " " features))
   else if Py.contains "review" attribute then
     let? n := py_len node_attr in
     if (n =? 0)%nat then Ok (VStr EmptyString)
     else
       let? reviews := record_items node_attr in
       let? ranks := review_ranks reviews in
       let? chunk :=
         capped_loop max_entries (chunk_review_entry reviews) 0 ranks EmptyString in
       Ok (VStr chunk)
   else if Py.contains "qa" attribute then
     let? n := py_len node_attr in
     if (n =? 0)%nat then Ok (VStr EmptyString)
     else
       let? qas := record_items node_attr in
       let? chunk := capped_loop max_entries chunk_qa_entry 0 qas EmptyString in
       Ok (VStr chunk)
   else if Py.contains "description" attribute then
     let? n := py_len node_attr in
     if (n =? 0)%nat then Ok node_attr
     else let? joined := join_items node_attr in Ok (VStr joined)
   else Ok node_attr)%result.

(** [get_chunk_info], lines 210-257. *)
Definition get_chunk_info (idx : Z) (attribute : string) : SR KB value :=
  (let! node := __getitem__ idx in
   if negb (hasattr node attribute) then sr_ret (VStr EmptyString)
   else
     let! node := __getitem__ idx in
     let! node_attr := sr_lift (getattr node attribute) in
     let! self := sr_get in
     sr_lift (chunk_of (max_entries self) attribute node_attr))%sr.

End Rendering.

(** ** Augmentation with meta links: [post_process] *)

(** [np.unique(a)] on strings: the distinct values in increasing order. *)
Fixpoint unique_insert (x : string) (l : list string) : list string :=
  match l with
  | [] => [x]
  | y :: l' =>
      match String.compare x y with
      | Eq => l
      | Lt => x :: l
      | Gt => y :: unique_insert x l'
      end
  end.

Definition np_unique (a : list string) : list string := foldr unique_insert [] a.

(** [self._process_brand(v)] on an attribute value: only a string has
    the [strip] method the first line calls. *)
Definition _process_brand_value (v : value) : result string :=
  match v with
  | VStr s => Ok (_process_brand s)
  | _ => Raise AttributeError
  end.

(** [link_type in node_info_i.keys()] *)
Definition has_key (link_type : string) (node_info_i : gmap string value) : bool :=
  bool_decide (is_Some (node_info_i !! link_type)).

(** An item of a NumPy array of strings: the array has a fixed width
    and pads shorter items with NUL characters, which it drops again when
    an item is read or compared, so the NUL characters at the end of a
    string are lost in the array. *)
Definition np_str (s : string) : string := Py.rstrip ["000"%char] s.

(** [values], lines 482-488: the array of the normalised values of the
    records that have the key, in the order of the records. *)
Fixpoint link_values (link_type : string) (l : list (gmap string value))
  : result (list string) :=
  match l with
  | [] => Ok []
  | node_info_i :: l' =>
      match node_info_i !! link_type with
      | Some v =>
          (let? x := _process_brand_value v in
           let? xs := link_values link_type l' in
           Ok (np_str x :: xs))%result
      | None => link_values link_type l'
      end
  end.

(** The list comprehension of lines 489-495. *)
Fixpoint link_indices (link_type : string) (idx : nat) (l : list (gmap string value))
  : list nat :=
  match l with
  | [] => []
  | node_info_i :: l' =>
      if has_key link_type node_info_i
      then idx :: link_indices link_type (S idx) l'
      else link_indices link_type (S idx) l'
  end.

(** [indices[np.array(values == unique_j)]] *)
Fixpoint select_ids (unique_j : string) (indices : list nat) (values : list string)
  : list nat :=
  match indices, values with
  | idx :: indices', v :: values' =>
      if String.eqb v unique_j
      then idx :: select_ids unique_j indices' values'
      else select_ids unique_j indices' values'
  | _, _ => []
  end.

(** [node_info[k] = r] on the dense dictionary: an existing key is
    overwritten, the next free key extends it. *)
Definition node_info_insert (k : nat) (r : gmap string value)
    (ni : list (gmap string value)) : list (gmap string value) :=
  if (k <? length ni)%nat then <[k := r]> ni else ni ++ [r].

(** The inner loop, lines 501-506, from position [j] of [unique] on. *)
Fixpoint add_meta_nodes (link_type : string) (cur_n_nodes type_id : nat)
    (indices : list nat) (values : list string)
    (j : nat) (unique : list string) (d : processed_data) : processed_data :=
  match unique with
  | [] => d
  | unique_j :: unique' =>
      let ids := select_ids unique_j indices values in
      add_meta_nodes link_type cur_n_nodes type_id indices values (S j) unique'
        {| node_info :=
             node_info_insert (cur_n_nodes + j)
               {[ link_type +:+ "_name" := VStr unique_j ]} (node_info d);
           edge_index :=
             ((edge_index d).1 ++ ids,
              (edge_index d).2 ++ replicate (length ids) (cur_n_nodes + j)%nat);
           edge_types := edge_types d ++ replicate (length ids) type_id;
           edge_type_dict := edge_type_dict d;
           node_type_dict := node_type_dict d;
           node_types := node_types d |}
  end.

(** The body of the outer loop, lines 482-507, for the kind [link_type]
    at position [i]. *)
Definition add_meta_link (n_e_types n_n_types : nat) (i : nat) (link_type : string)
    (d : processed_data) : result processed_data :=
  (let? values := link_values link_type (node_info d) in
   let indices := link_indices link_type 0 (node_info d) in
   let cur_n_nodes := length (node_info d) in
   let d :=
     {| node_info := node_info d;
        edge_index := edge_index d;
        edge_types := edge_types d;
        edge_type_dict := <[(n_e_types + i)%nat := "has_" +:+ link_type]> (edge_type_dict d);
        node_type_dict := <[(n_n_types + i)%nat := link_type]> (node_type_dict d);
        node_types := node_types d |} in
   let unique := np_unique values in
   let d :=
     add_meta_nodes link_type cur_n_nodes (i + n_e_types) indices values 0 unique d in
   Ok {| node_info := node_info d;
         edge_index := edge_index d;
         edge_types := edge_types d;
         edge_type_dict := edge_type_dict d;
         node_type_dict := node_type_dict d;
         node_types := node_types d ++ replicate (length unique) (n_n_types + i)%nat |})%result.

(** The outer loop, lines 481-507, from position [i] of [meta_link_types]
    on. *)
Fixpoint post_process_loop (n_e_types n_n_types : nat) (i : nat)
    (meta_link_types : list string) (d : processed_data) : result processed_data :=
  match meta_link_types with
  | [] => Ok d
  | link_type :: rest =>
      (let? d := add_meta_link n_e_types n_n_types i link_type d in
       post_process_loop n_e_types n_n_types (S i) rest d)%result
  end.

(** [post_process], lines 471-521, up to the call of [save_files], which
    writes [files] to [cache_path] and leaves them as they are. *)
Definition post_process (raw_info : processed_data) (meta_link_types : list string)
  : result processed_data :=
  let n_e_types := size (edge_type_dict raw_info) in
  let n_n_types := size (node_type_dict raw_info) in
  post_process_loop n_e_types n_n_types 0 meta_link_types raw_info.

(** ** Construction from the raw records: [_process_raw] *)

Definition REVIEW_CATEGORIES : list string :=
  ["Amazon_Fashion"; "All_Beauty"; "Appliances"; "Arts_Crafts_and_Sewing";
   "Automotive"; "Books"; "CDs_and_Vinyl"; "Cell_Phones_and_Accessories";
   "Clothing_Shoes_and_Jewelry"; "Digital_Music"; "Electronics"; "Gift_Cards";
   "Grocery_and_Gourmet_Food"; "Home_and_Kitchen"; "Industrial_and_Scientific";
   "Kindle_Store"; "Luxury_Beauty"; "Magazine_Subscriptions"; "Movies_and_TV";
   "Musical_Instruments"; "Office_Products"; "Patio_Lawn_and_Garden";
   "Pet_Supplies"; "Prime_Pantry"; "Software"; "Sports_and_Outdoors";
   "Tools_and_Home_Improvement"; "Toys_and_Games"; "Video_Games"].

Definition QA_CATEGORIES : list string :=
  ["Appliances"; "Arts_Crafts_and_Sewing"; "Automotive"; "Baby"; "Beauty";
   "Cell_Phones_and_Accessories"; "Clothing_Shoes_and_Jewelry"; "Electronics";
   "Grocery_and_Gourmet_Food"; "Health_and_Personal_Care"; "Home_and_Kitchen";
   "Musical_Instruments"; "Office_Products"; "Patio_Lawn_and_Garden";
   "Pet_Supplies"; "Sports_and_Outdoors"; "Tools_and_Home_Improvement";
   "Toys_and_Games"; "Video_Games"].

Definition COMMON : list string :=
  ["Appliances"; "Arts_Crafts_and_Sewing"; "Automotive";
   "Cell_Phones_and_Accessories"; "Clothing_Shoes_and_Jewelry"; "Electronics";
   "Grocery_and_Gourmet_Food"; "Home_and_Kitchen"; "Musical_Instruments";
   "Office_Products"; "Patio_Lawn_and_Garden"; "Pet_Supplies";
   "Sports_and_Outdoors"; "Tools_and_Home_Improvement"; "Toys_and_Games";
   "Video_Games"].

Definition link_columns : list string := ["also_buy"; "also_view"].
Definition review_columns : list string :=
  ["reviewerID"; "summary"; "reviewText"; "vote"; "overall"; "verified"; "reviewTime"].
Definition qa_columns : list string :=
  ["questionType"; "answerType"; "question"; "answer"; "answerTime"].
Definition meta_columns : list string :=
  ["asin"; "title"; "global_category"; "category"; "price"; "brand"; "feature";
   "rank"; "details"; "description"].

(** A row of a data frame: its natural key, the column [asin], and the
    cells of its other columns.  A frame is the list of its rows, in
    order. *)
Record row := {
  asin : string;
  cells : gmap string value;
}.

(** [df[columns]]: the named columns of every row, a cell never filled
    being null; the key column is held by [asin].  The frames are taken to
    have the declared columns. *)
Definition select_columns (columns : list string) (df : list row) : list row :=
  (λ r, {| asin := asin r;
           cells := list_to_map ((λ c, (c, default VNull (cells r !! c)))
                                 <$> filter (λ c, c ≠ "asin") columns) |})
  <$> df.

(** [df.drop_duplicates(subset="asin", keep="first")]; [seen] holds the
    keys of the rows already passed. *)
Fixpoint drop_duplicates_from (seen : gset string) (df : list row) : list row :=
  match df with
  | [] => []
  | r :: df' =>
      if bool_decide (asin r ∈ seen) then drop_duplicates_from seen df'
      else r :: drop_duplicates_from ({[asin r]} ∪ seen) df'
  end.

Definition drop_duplicates (df : list row) : list row := drop_duplicates_from ∅ df.

(** [left.merge(right, left_on="asin", right_on="asin")]: the inner join,
    in the order of the left keys. *)
Definition merge (left right : list row) : list row :=
  left ≫= λ l,
    (λ r, {| asin := asin l; cells := cells l ∪ cells r |})
    <$> filter (λ r, asin r = asin l) right.

(** [df[df["asin"].isin(keys)]] *)
Definition isin_asin (keys : list string) (df : list row) : list row :=
  filter (λ r, asin r ∈ keys) df.

(** [get_map], lines 436-441, from row [idx] on. *)
Fixpoint get_map_from (idx : nat) (df : list row)
    (maps : gmap string nat * gmap nat string) : gmap string nat * gmap nat string :=
  match df with
  | [] => maps
  | r :: df' =>
      get_map_from (S idx) df' (<[asin r := idx]> maps.1, <[idx := asin r]> maps.2)
  end.

Definition get_map (df : list row) : gmap string nat * gmap nat string :=
  get_map_from 0 df (∅, ∅).

(** What lines 423-445 compute: the three reduced frames and the two
    maps stored in [self.asin2id] and [self.id2asin]. *)
Record linked := {
  df_qa_reduced : list row;
  df_review_reduced : list row;
  df_meta_reduced : list row;
  asin2id : gmap string nat;
  id2asin : gmap nat string;
}.

(** Lines 423-445 of [_process_raw]. *)
Definition link_records (df_qa df_review df_ucsd_meta : list row) : linked :=
  let df_ucsd_meta := drop_duplicates df_ucsd_meta in
  let df_meta := select_columns (meta_columns ++ link_columns) df_ucsd_meta in
  let df_review_meta := merge df_review df_meta in
  let unique_asin := np_unique (asin <$> df_review_meta) in
  let df_qa_reduced := isin_asin unique_asin df_qa in
  let df_review_reduced := isin_asin unique_asin df_review in
  let df_meta_reduced := isin_asin unique_asin df_meta in
  let maps := get_map df_meta_reduced in
  {| df_qa_reduced := df_qa_reduced;
     df_review_reduced := df_review_reduced;
     df_meta_reduced := df_meta_reduced;
     asin2id := maps.1;
     id2asin := maps.2 |}.

(** The effects of construction, in the order they happen. *)
Inductive event :=
| Download (url directory : string)
| ReadRaw (path : string)
| LoadFiles (path : string)
| SaveFiles (path : string).

(** What construction reads and writes besides its arguments: the two
    maps it stores in [self], the bundles saved on disk, by directory, and
    the trace of its effects. *)
Record world := {
  self_asin2id : gmap string nat;
  self_id2asin : gmap nat string;
  stored : gmap string processed_data;
  events : list event;
}.

Definition log (e : event) : SR world unit :=
  λ w, (Ok tt,
        {| self_asin2id := self_asin2id w; self_id2asin := self_id2asin w;
           stored := stored w; events := events w ++ [e] |}).

(** [assert cond, msg] *)
Definition py_assert (cond : bool) (msg : string) : result unit :=
  if cond then Ok tt else Raise (AssertionError msg).

(** [pd.concat(frames)], which refuses an empty list of frames. *)
Definition pd_concat (frames : list (list row)) : result (list row) :=
  match frames with
  | [] => Raise ValueError
  | _ => Ok (concat frames)
  end.

Fixpoint sr_map {S A B : Type} (f : A → SR S B) (l : list A) : SR S (list B) :=
  match l with
  | [] => sr_ret []
  | x :: l' =>
      (let! y := f x in
       let! ys := sr_map f l' in
       sr_ret (y :: ys))%sr
  end.

(** The failure of the allow-list check of line 370, which is what the
    documented [InvalidCategoryError] is in the code. *)
Definition InvalidCategoryError : exn := AssertionError "invalid categories exist".

(** Lines 365-370: the categories to read, after the check of the
    requested ones against [COMMON]. *)
Definition select_categories (categories : list string)
  : result (list string * list string) :=
  if bool_decide ("all" ∈ categories)
  then Ok (REVIEW_CATEGORIES, QA_CATEGORIES)
  else
    (let? _ :=
       py_assert
         (length (list_difference (remove_dups categories) COMMON) =? 0)%nat
         "invalid categories exist" in
     Ok (categories, categories))%result.

Section Construction.

(** The directories derived from [root]; the rows [read_review] and
    [read_qa] parse from an archive, by path; and the two builders of
    lines 446-451, which the properties below do not depend on. *)
Variable raw_data_dir processed_data_dir : string.
Variable read_review read_qa : string → list row.
Variable construct_raw_node_info : linked → result (list (gmap string value)).
Variable create_raw_product_graph :
  linked → list string → result ((list nat * list nat) * list nat).

Definition osp_join (a b : string) : string := a +:+ "/" +:+ b.

Definition review_header : string :=
  "https://datarepo.eng.ucsd.edu/mcauley_group/data/amazon_v2".
Definition qa_header : string :=
  "https://datarepo.eng.ucsd.edu/mcauley_group/data/amazon/qa".

(** The entries [processed_data.update] adds, lines 463-468 and 375-380. *)
Definition with_product_types (d : processed_data) : processed_data :=
  {| node_info := node_info d; edge_index := edge_index d;
     edge_types := edge_types d; edge_type_dict := edge_type_dict d;
     node_type_dict := {[ 0%nat := "product" ]};
     node_types := replicate (length (node_info d)) 0%nat |}.

Definition read_frame (read : string → list row) (path : string) : SR world (list row) :=
  (let! _ := log (ReadRaw path) in sr_ret (read path))%sr.

(** [_process_raw], lines 364-469. *)
Definition _process_raw (categories : list string) : SR world processed_data :=
  (let! (review_categories, qa_categories) := sr_lift (select_categories categories) in
   let! w := sr_get in
   match stored w !! processed_data_dir with
   | Some loaded_files =>
       let! _ := log (LoadFiles processed_data_dir) in
       sr_ret (with_product_types loaded_files)
   | None =>
       let! _ :=
         sr_for review_categories (λ category,
           let! _ := log (Download (review_header +:+ "/categoryFiles/" +:+ category +:+ ".json.gz")
                                   raw_data_dir) in
           log (Download (review_header +:+ "/metaFiles2/meta_" +:+ category +:+ ".json.gz")
                         raw_data_dir)) in
       let! _ :=
         sr_for qa_categories (λ category,
           log (Download (qa_header +:+ "/qa_" +:+ category +:+ ".json.gz") raw_data_dir)) in
       let! qa_frames :=
         sr_map (λ category,
           read_frame read_qa (osp_join raw_data_dir ("qa_" +:+ category +:+ ".json.gz")))
           qa_categories in
       let! df_qa := sr_lift (pd_concat qa_frames) in
       let df_qa := select_columns ("asin" :: qa_columns) df_qa in
       let! review_frames :=
         sr_map (λ category,
           read_frame read_review (osp_join raw_data_dir (category +:+ ".json.gz")))
           review_categories in
       let! df_review := sr_lift (pd_concat review_frames) in
       let df_review := select_columns ("asin" :: review_columns) df_review in
       let! meta_df_lst :=
         sr_map (λ category,
           let! cat_review :=
             read_frame read_review
               (osp_join raw_data_dir ("meta_" +:+ category +:+ ".json.gz")) in
           sr_ret ((λ r, {| asin := asin r;
                            cells := <["global_category" :=
                                         VStr (Py.replace_char "_" " " category)]> (cells r) |})
                   <$> cat_review))
           review_categories in
       let! df_ucsd_meta := sr_lift (pd_concat meta_df_lst) in
       let l := link_records df_qa df_review df_ucsd_meta in
       let! _ := (λ w, (Ok tt,
                        {| self_asin2id := asin2id l; self_id2asin := id2asin l;
                           stored := stored w; events := events w |})) in
       let! node_info := sr_lift (construct_raw_node_info l) in
       let! (edge_index, edge_types) := sr_lift (create_raw_product_graph l link_columns) in
       let processed_data :=
         {| node_info := node_info; edge_index := edge_index;
            edge_types := edge_types;
            edge_type_dict := {[ 0%nat := "also_buy"; 1%nat := "also_view" ]};
            node_type_dict := ∅; node_types := [] |} in
       let! _ := log (SaveFiles processed_data_dir) in
       let! _ := (λ w, (Ok tt,
                        {| self_asin2id := self_asin2id w; self_id2asin := self_id2asin w;
                           stored := <[processed_data_dir := processed_data]> (stored w);
                           events := events w |})) in
       sr_ret (with_product_types processed_data)
   end)%sr.

End Construction.

(** ** Entries shown by the capped loops

    [render_from render i l] renders every item of [l], numbered from [i];
    [shown_entries max_entries n] is the number of items the capped loop
    renders out of [n]. *)
Fixpoint render_from {A : Type} (render : nat → A → result string) (i : nat)
    (l : list A) : result (list string) :=
  match l with
  | [] => Ok []
  | x :: l' =>
      (let? e := render i x in
       let? es := render_from render (S i) l' in
       Ok (e :: es))%result
  end.

Definition shown_entries (max_entries : Z) (n : nat) : nat :=
  Z.to_nat (Z.min (Z.of_nat n) (Z.max 1 (max_entries + 2))).

(** What the code needs of [np.argsort]: the positions of the array,
    each once. *)
Definition ranks_ok (argsort_neg : list Z → list nat) : Prop :=
  ∀ scores, argsort_neg scores ≡ₚ seq 0 (length scores).

(** Entries shown from loop index [i] on, out of [n] remaining items. *)
Definition shown_from (max_entries : Z) (i n : nat) : nat :=
  Z.to_nat (Z.min (Z.of_nat n) (Z.max 1 (max_entries + 2 - Z.of_nat i))).

(** ** Feature entries kept by the filter

    The entries of a feature list that are neither empty nor mention
    "asin" in any letter case, with their positions counted from
    [feature_idx], and the line the document shows for one of them. *)
Fixpoint kept_features (feature_idx : nat) (l : list string) : list (nat * string) :=
  match l with
  | [] => []
  | feature :: l' =>
      if (String.eqb feature EmptyString || Py.contains "asin" (Py.lower feature))%bool
      then kept_features (S feature_idx) l'
      else (feature_idx, feature) :: kept_features (S feature_idx) l'
  end.

Definition feature_line (p : nat * string) : string :=
  "#" +:+ str_nat (p.1 + 1) +:+ ": " +:+ p.2 +:+ nl.

(** ** Node records the renderer accepts

    The shape construction gives a product record, and the lines the
    document has for its optional parts. *)
Definition wf_review (r : gmap string (option string)) : Prop :=
  (r !! "vote" = Some None ∨
   ∃ s z, r !! "vote" = Some (Some s) ∧ py_int (Py.remove_char "," s) = Ok z) ∧
  is_Some (r !! "summary") ∧ is_Some (r !! "reviewText").

Definition wf_qa (r : gmap string (option string)) : Prop :=
  is_Some (r !! "question") ∧ is_Some (r !! "answer").

Definition wf_neighbors (self : KB) (idx : Z) : Prop :=
  Forall (λ i, ∃ n s, node_info_get (node_info (data self)) i = Ok n ∧
                      n !! "title" = Some (VStr s))
         (get_neighbor_nodes self idx "also_buy" ++ get_neighbor_nodes self idx "also_view") ∧
  ∀ b, head (get_neighbor_nodes self idx "has_brand") = Some b →
       ∃ n, node_info_get (node_info (data self)) b = Ok n ∧ is_Some (n !! "brand_name").

Definition brand_line (py_repr : value → string) (node : gmap string value) : string :=
  match node !! "brand" with
  | Some b => "- brand: " +:+ py_str py_repr b +:+ nl
  | None => EmptyString
  end.

Definition dimensions_lines (node : gmap string value) : string :=
  match product_dimensions node with
  | Ok (dimensions, weight) =>
      "- dimensions: " +:+ dimensions +:+ nl +:+ "- weight: " +:+ weight +:+ nl
  | Raise _ => EmptyString
  end.

Definition description_line (d : list string) : string :=
  let t := Py.strip [" "%char] (Py.join " " d) in
  if (0 <? Py.len t)%nat then "- description: " +:+ t +:+ nl else EmptyString.

Definition section (header : string) (entries : list string) : string :=
  match entries with
  | [] => EmptyString
  | _ => header +:+ nl +:+ String.concat EmptyString entries
  end.

Definition wf_product (node : gmap string value) : Prop :=
  is_Some (node !! "title") ∧
  (∃ d, node !! "description" = Some (VStrs d)) ∧
  (∃ f, node !! "feature" = Some (VStrs f)) ∧
  (∃ rv, node !! "review" = Some (VRecs rv) ∧ Forall wf_review rv) ∧
  (∃ qa, node !! "qa" = Some (VRecs qa) ∧ Forall wf_qa qa).

(** The features section: present whenever the list is not empty. *)
Definition features_section (f : list string) : string :=
  if decide (f = []) then EmptyString
  else "- features: " +:+ nl +:+
       String.concat EmptyString (feature_line <$> kept_features 0 f).

(** ** Edges of a bundle

    The edges as triples of source, destination and type id; the bundle
    is well formed when its three edge arrays are parallel.  [meta_edges]
    lists the edges the inner loop of [post_process] adds, and
    [out_edges d e label] the destinations of the edges of [d] that leave
    [e] under the type label [label]. *)
Definition edges (d : processed_data) : list (nat * nat * nat) :=
  zip (zip (edge_index d).1 (edge_index d).2) (edge_types d).

Definition parallel (d : processed_data) : Prop :=
  length (edge_index d).1 = length (edge_types d) ∧
  length (edge_index d).2 = length (edge_types d).

Fixpoint meta_edges (cur_n_nodes type_id : nat) (indices : list nat)
    (values : list string) (j : nat) (unique : list string) : list (nat * nat * nat) :=
  match unique with
  | [] => []
  | unique_j :: unique' =>
      ((λ idx, (idx, (cur_n_nodes + j)%nat, type_id))
         <$> select_ids unique_j indices values) ++
      meta_edges cur_n_nodes type_id indices values (S j) unique'
  end.

Definition out_edges (d : processed_data) (e : nat) (label : string) : list nat :=
  (filter (λ x, x.1.1 = e ∧ edge_type_dict d !! x.2 = Some label) (edges d)).*1.*2.

(** ** Sample data *)

Definition sample_repr (v : value) : string := "None".

Definition sample_review (vote : option string) (summary text : string)
  : gmap string (option string) :=
  {[ "vote" := vote; "summary" := Some summary; "reviewText" := Some text ]}.

Definition sample_product (feature : list string)
    (review : list (gmap string (option string))) : gmap string value :=
  {[ "title" := VStr "Tent"; "description" := VStrs []; "feature" := VStrs feature;
     "review" := VRecs review; "qa" := VRecs [] ]}.

Definition sample_kb (max_entries : Z) (node : gmap string value) : KB :=
  {| data := {| node_info := [node]; edge_index := ([], []); edge_types := [];
                edge_type_dict := {[ 0%nat := "also_buy"; 1%nat := "also_view" ]};
                node_type_dict := {[ 0%nat := "product" ]};
                node_types := [0%nat] |};
     max_entries := max_entries;
     get_neighbor_nodes := λ _ _, [] |}.

Definition two_reviews : list (gmap string (option string)) :=
  [sample_review None "good" "sturdy"; sample_review (Some "3") "bad" "leaks"].

Definition witness_node : gmap string value :=
  <["brand" := VStr "Acme"]>
    (<["qa" := VRecs [ {[ "question" := Some "Is it waterproof?";
                          "answer" := Some "Yes" ]} ]]>
       (sample_product ["Two doors"; "ASIN: B000"]
          [sample_review (Some "1,234") "good" "sturdy"; sample_review None "bad" "leaks"])).

Definition witness_kb : KB :=
  {| data := {| node_info := [witness_node; {[ "brand_name" := VStr "Acme" ]}];
                edge_index := ([0%nat], [1%nat]); edge_types := [2%nat];
                edge_type_dict :=
                  {[ 0%nat := "also_buy"; 1%nat := "also_view"; 2%nat := "has_brand" ]};
                node_type_dict := {[ 0%nat := "product"; 1%nat := "brand" ]};
                node_types := [0%nat; 1%nat] |};
     max_entries := 25;
     get_neighbor_nodes :=
       λ idx label,
         if String.eqb label "has_brand" then (if idx =? 0 then [1] else [0])
         else if String.eqb label "also_buy" then [0] else [] |}.

Definition sample_graph : processed_data :=
  {| node_info :=
       [ {[ "title" := VStr "Tent"; "brand" := VStr "by Acme" ]};
         {[ "title" := VStr "Stove" ]};
         {[ "title" := VStr "Lamp"; "brand" := VStr "www.zed.com" ]};
         {[ "title" := VStr "Rope"; "brand" := VStr "Acme" ]} ];
     edge_index := ([0; 1; 3]%nat, [1; 2; 0]%nat);
     edge_types := [0; 1; 0]%nat;
     edge_type_dict := {[ 0%nat := "also_buy"; 1%nat := "also_view" ]};
     node_type_dict := {[ 0%nat := "product" ]};
     node_types := [0; 0; 0; 0]%nat |}.

(** A knowledge base with one synthetic node of the kind [link_type],
    as augmentation with that kind labels and fills it. *)
Definition meta_kb (link_type : string) : KB :=
  {| data := {| node_info := [ {[ link_type +:+ "_name" := VStr "Outdoors" ]} ];
                edge_index := ([], []); edge_types := [];
                edge_type_dict := {[ 0%nat := "has_" +:+ link_type ]};
                node_type_dict := {[ 0%nat := link_type ]};
                node_types := [0%nat] |};
     max_entries := 25;
     get_neighbor_nodes := λ _ _, [] |}.

(** A literal of [n] digits. *)
Definition ones (n : nat) : string := string_of_list_ascii (replicate n "1"%char).

(** A brand that ends in a NUL character, and a graph with it. *)
Definition nul_brand : string := "Acme" +:+ String "000"%char EmptyString.

Definition nul_graph : processed_data :=
  {| node_info := [ {[ "title" := VStr "Tent"; "brand" := VStr nul_brand ]} ];
     edge_index := ([], []);
     edge_types := [];
     edge_type_dict := {[ 0%nat := "also_buy"; 1%nat := "also_view" ]};
     node_type_dict := {[ 0%nat := "product" ]};
     node_types := [0%nat] |}.

(** ** Substrings

    [substring_of t s]: [t] is a run of consecutive characters of [s]. *)
Definition substring_of (t s : string) : Prop :=
  ∃ pre post : string, s = pre +:+ t +:+ post.

(** ** Brand comparison: [has_brand] *)

(** [try: m  except: return default] with a bare [except]: every
    exception is swallowed, the state reached when it was raised is
    kept. *)
Definition sr_try_return {S A : Type} (m : SR S A) (default : A) : SR S A :=
  λ s, match m s with
       | (Ok a, s') => (Ok a, s')
       | (Raise _, s') => (Ok default, s')
       end.

(** [if len(b) > 4 and b[-4:] == ".com": b = b[:-4]], lines 591-594.  A
    value without a length raises [TypeError]; a list is never equal to
    the string [".com"], so it is left as it is. *)
Definition drop_dot_com (b : value) : result value :=
  (let? n := py_len b in
   match b with
   | VStr s =>
       if ((4 <? n)%nat && String.eqb (Py.slice_last 4 s) ".com")%bool
       then Ok (VStr (Py.slice_but_last 4 s)) else Ok b
   | _ => Ok b
   end)%result.

(** [b.lower()] stripped of double quotes at both ends, line 595: only a
    string has the method [lower]. *)
Definition lower_strip (b : value) : result string :=
  match b with
  | VStr s => Ok (Py.strip ["034"%char] (Py.lower s))
  | _ => Raise AttributeError
  end.

(** [has_brand], lines 588-597. *)
Definition has_brand (idx : Z) (brand : value) : SR KB bool :=
  sr_try_return
    (let! node := __getitem__ idx in
     let! b := sr_lift (getattr node "brand") in
     let! b := sr_lift (drop_dot_com b) in
     let! brand := sr_lift (drop_dot_com brand) in
     let! x := sr_lift (lower_strip b) in
     let! y := sr_lift (lower_strip brand) in
     sr_ret (String.eqb x y))%sr
    false.

(** What [has_brand] compares: the string without one trailing [".com"],
    in lower case, without double quotes at its ends. *)
Definition brand_key (s : string) : string :=
  Py.strip ["034"%char]
    (Py.lower (if ((4 <? Py.len s)%nat && String.eqb (Py.slice_last 4 s) ".com")%bool
               then Py.slice_but_last 4 s else s)).

(** Text in ASCII: every character is below 128.  On such text
    [str.lower] changes the letters [A-Z] only, as [Py.lower] does. *)
Definition ascii_text (s : string) : Prop :=
  Forall (λ c, (nat_of_ascii c < 128)%nat) (list_ascii_of_string s).

(** ** The entry point: [get_semistructured_data] *)

(** [os.path.join(a, *p)] of [posixpath]. *)
Definition os_path_join_step (path b : string) : string :=
  if String.prefix "/" b then b
  else if (String.eqb path EmptyString || bool_decide (last_char path = Some "/"%char))%bool
  then path +:+ b
  else path +:+ "/" +:+ b.

Definition os_path_join (a : string) (p : list string) : string :=
  foldl os_path_join_step a p.

Section EntryPoint.

(** The constructor of [AmazonSemiStruct] with the keyword arguments of
    the call, taken as given, on whatever state it works on (the disk and
    the network). *)
Variable World : Type.
Variable AmazonSemiStruct :
  ∀ (root : string) (categories meta_link_types : list string)
    (indirected download_processed : bool), SR World KB.

(** [get_semistructured_data] of [src/benchmarks/get_semistruct.py]:
    the local name [kb] is assigned only when [name] is ["amazon"]. *)
Definition get_semistructured_data (name root : string) (download_processed : bool)
  : SR World KB :=
  (let data_root := os_path_join root [name] in
   let! kb :=
     if String.eqb name "amazon" then
       let categories := ["Sports_and_Outdoors"] in
       let! kb :=
         AmazonSemiStruct data_root categories ["brand"] true download_processed in
       sr_ret (Some kb)
     else sr_ret None in
   sr_lift (read_local kb))%sr.

End EntryPoint.

(** * Properties *)

(** ** Characters of the string primitives *)

Abbreviation chars := list_ascii_of_string.
Abbreviation of_chars := string_of_list_ascii.

Lemma chars_inj (s t : string) : chars s = chars t → s = t.
Proof.
  intros H. rewrite <- (string_of_list_ascii_of_string s),
    <- (string_of_list_ascii_of_string t). by rewrite H.
Qed.

Lemma chars_length (s : string) : length (chars s) = String.length s.
Proof. induction s as [|c s IH]; simpl; [done | by rewrite IH]. Qed.

Lemma chars_app (s t : string) : chars (s +:+ t) = chars s ++ chars t.
Proof. induction s as [|c s IH]; simpl; [done | by rewrite IH]. Qed.

Lemma chars_substring (n m : nat) (s : string) :
  chars (substring n m s) = take m (drop n (chars s)).
Proof.
  revert n m. induction s as [|c s IH]; intros [|n] [|m]; simpl; try done;
    by rewrite IH.
Qed.

Lemma chars_slice_to (n : nat) (s : string) :
  chars (Py.slice_to n s) = take n (chars s).
Proof. unfold Py.slice_to. by rewrite chars_substring. Qed.

Lemma chars_slice_from (n : nat) (s : string) :
  chars (Py.slice_from n s) = drop n (chars s).
Proof.
  unfold Py.slice_from, Py.len. rewrite chars_substring.
  apply take_ge. rewrite length_drop, chars_length. lia.
Qed.

Lemma chars_slice_last (n : nat) (s : string) :
  chars (Py.slice_last n s) = drop (length (chars s) - n) (chars s).
Proof. unfold Py.slice_last, Py.len. by rewrite chars_slice_from, chars_length. Qed.

Lemma chars_slice_but_last (n : nat) (s : string) :
  chars (Py.slice_but_last n s) = take (length (chars s) - n) (chars s).
Proof. unfold Py.slice_but_last, Py.len. by rewrite chars_slice_to, chars_length. Qed.

(** ** Stripping *)

Lemma mem_elem_of (c : ascii) (cs : list ascii) :
  Py.mem c cs = bool_decide (c ∈ cs).
Proof.
  unfold Py.mem. induction cs as [|d cs IH]; simpl.
  - done.
  - rewrite IH. destruct (Ascii.eqb_spec c d) as [->|Hne]; simpl.
    + symmetry. apply bool_decide_eq_true. left.
    + apply bool_decide_ext. rewrite elem_of_cons. tauto.
Qed.

Lemma chars_lstrip (cs : list ascii) (s : string) :
  chars (Py.lstrip cs s) = drop_while (λ c, bool_decide (c ∈ cs)) (chars s).
Proof.
  induction s as [|c s IH]; simpl; [done|].
  rewrite <- mem_elem_of. by destruct (Py.mem c cs).
Qed.

Lemma drop_while_snoc (P : ascii → bool) (l : list ascii) (c : ascii) :
  drop_while P (l ++ [c]) =
    match drop_while P l with
    | [] => if P c then [] else [c]
    | r => r ++ [c]
    end.
Proof.
  induction l as [|d l IH]; simpl; [done|].
  destruct (P d); [done | done].
Qed.

Lemma chars_rstrip (cs : list ascii) (s : string) :
  chars (Py.rstrip cs s) =
    reverse (drop_while (λ c, bool_decide (c ∈ cs)) (reverse (chars s))).
Proof.
  induction s as [|c s IH]; simpl; [done|].
  rewrite reverse_cons, drop_while_snoc.
  destruct (Py.rstrip cs s) as [|d r] eqn:Hr; simpl in IH.
  - symmetry in IH. apply (f_equal reverse) in IH.
    rewrite reverse_involutive, reverse_nil in IH. rewrite IH.
    rewrite <- mem_elem_of. by destruct (Py.mem c cs).
  - destruct (drop_while _ (reverse (chars s))) as [|e k] eqn:Hk.
    + by rewrite reverse_nil in IH.
    + rewrite reverse_snoc. simpl. by rewrite <- IH.
Qed.

Lemma chars_strip (cs : list ascii) (s : string) :
  chars (Py.strip cs s) = trim (λ c, bool_decide (c ∈ cs)) (chars s).
Proof. unfold Py.strip, trim. by rewrite chars_rstrip, chars_lstrip. Qed.

Lemma lstrip_length (cs : list ascii) (s : string) :
  (Py.len (Py.lstrip cs s) ≤ Py.len s)%nat.
Proof.
  unfold Py.len. induction s as [|c s IH]; simpl; [done|].
  destruct (Py.mem c cs); simpl; lia.
Qed.

Lemma lstrip_same (cs : list ascii) (s : string) :
  Py.len (Py.lstrip cs s) = Py.len s → outside cs (first_char s) = true.
Proof.
  destruct s as [|c s]; simpl; [done|].
  destruct (Py.mem c cs) eqn:Hc; simpl; [|done].
  pose proof (lstrip_length cs s). unfold Py.len in *. simpl. lia.
Qed.

Lemma lstrip_outside (cs : list ascii) (s : string) :
  outside cs (first_char s) = true → Py.lstrip cs s = s.
Proof. destruct s as [|c s]; simpl; [done|]. by destruct (Py.mem c cs). Qed.

Lemma rstrip_length (cs : list ascii) (s : string) :
  (Py.len (Py.rstrip cs s) ≤ Py.len s)%nat.
Proof.
  unfold Py.len. induction s as [|c s IH]; simpl; [done|].
  destruct (Py.rstrip cs s); [destruct (Py.mem c cs)|]; simpl in *; lia.
Qed.

Lemma rstrip_same (cs : list ascii) (s : string) :
  Py.len (Py.rstrip cs s) = Py.len s → outside cs (last_char s) = true.
Proof.
  unfold Py.len. induction s as [|c s IH]; simpl; [done|].
  pose proof (rstrip_length cs s) as Hle. unfold Py.len in Hle.
  destruct (Py.rstrip cs s) as [|d r] eqn:Hr.
  - destruct (Py.mem c cs) eqn:Hc; simpl; [intros; lia|].
    intros Hlen. destruct s; simpl in *; [by rewrite Hc | by inversion Hlen].
  - simpl. intros Hlen. destruct s as [|e s]; [done|]. apply IH. simpl in *. lia.
Qed.

Lemma rstrip_outside (cs : list ascii) (s : string) :
  outside cs (last_char s) = true → Py.rstrip cs s = s.
Proof.
  induction s as [|c s IH]; simpl; [done|].
  destruct s as [|e s].
  - simpl. intros ->%negb_true_iff. done.
  - intros H. rewrite (IH H). done.
Qed.

(** ** The five steps of the normalisation, on characters *)

Lemma prefix_take (l1 l2 : list ascii) :
  l1 `prefix_of` l2 ↔ take (length l1) l2 = l1.
Proof.
  split.
  - intros [k ->]. by rewrite take_app_length.
  - intros H. exists (drop (length l1) l2). by rewrite <- H at 1; rewrite take_drop.
Qed.

Lemma suffix_drop (l1 l2 : list ascii) :
  l1 `suffix_of` l2 ↔ drop (length l2 - length l1) l2 = l1.
Proof.
  split.
  - intros [k ->]. rewrite length_app.
    replace (length k + length l1 - length l1)%nat with (length k) by lia.
    by rewrite drop_app_length.
  - intros H. exists (take (length l2 - length l1) l2).
    by rewrite <- H at 2; rewrite take_drop.
Qed.

Lemma eqb_chars (s t : string) : String.eqb s t = bool_decide (chars s = chars t).
Proof.
  destruct (String.eqb_spec s t) as [->|Hne]; symmetry.
  - by apply bool_decide_eq_true.
  - apply bool_decide_eq_false. by intros ?%chars_inj.
Qed.

Lemma guard_prefix (n : nat) (p s : string) :
  n = String.length p →
  ((n <? Py.len s)%nat && String.eqb (Py.slice_to n s) p)%bool =
    bool_decide (chars p `prefix_of` chars s ∧ (n < length (chars s))%nat).
Proof.
  intros ->. rewrite eqb_chars, chars_slice_to. unfold Py.len.
  destruct (Nat.ltb_spec (String.length p) (String.length s)) as [Hlt|Hge]; simpl.
  - apply bool_decide_ext. rewrite prefix_take, !chars_length. tauto.
  - symmetry. apply bool_decide_eq_false. rewrite chars_length. lia.
Qed.

Lemma guard_suffix (n : nat) (p s : string) :
  n = String.length p →
  ((n <? Py.len s)%nat && String.eqb (Py.slice_last n s) p)%bool =
    bool_decide (chars p `suffix_of` chars s ∧ (n < length (chars s))%nat).
Proof.
  intros ->. rewrite eqb_chars, chars_slice_last. unfold Py.len.
  destruct (Nat.ltb_spec (String.length p) (String.length s)) as [Hlt|Hge]; simpl.
  - apply bool_decide_ext. rewrite suffix_drop, !chars_length. tauto.
  - symmetry. apply bool_decide_eq_false. rewrite chars_length. lia.
Qed.

Lemma chars_split_head (sep : ascii) (s : string) :
  chars (Py.split_head sep s) = take_until (λ c, bool_decide (c = sep)) (chars s).
Proof.
  induction s as [|c s IH]; simpl; [done|].
  destruct (Ascii.eqb_spec c sep) as [->|Hne].
  - by rewrite bool_decide_eq_true_2.
  - rewrite bool_decide_eq_false_2 by done. simpl. by rewrite IH.
Qed.

Lemma process_brand_chars (s : string) :
  chars (_process_brand s) = chars (normalize_brand s).
Proof.
  unfold _process_brand, normalize_brand. cbv zeta.
  rewrite list_ascii_of_string_of_list_ascii.
  rewrite <- chars_strip. generalize (Py.strip STRIP_CHARS s) as s1. intros s1.
  rewrite (guard_prefix 3 "by " s1) by done.
  assert (∀ b : bool, chars (if b then Py.slice_from 3 s1 else s1)
            = if b then drop 3 (chars s1) else chars s1) as H2
    by (intros []; [apply chars_slice_from | done]).
  rewrite <- H2. generalize (if bool_decide
    (chars "by " `prefix_of` chars s1 ∧ (3 < length (chars s1))%nat)
    then Py.slice_from 3 s1 else s1) as s2. clear H2. intros s2.
  rewrite (guard_suffix 4 ".com" s2) by done.
  assert (∀ b : bool, chars (if b then Py.slice_but_last 4 s2 else s2)
            = if b then take (length (chars s2) - 4) (chars s2) else chars s2) as H3
    by (intros []; [apply chars_slice_but_last | done]).
  rewrite <- H3. generalize (if bool_decide
    (chars ".com" `suffix_of` chars s2 ∧ (4 < length (chars s2))%nat)
    then Py.slice_but_last 4 s2 else s2) as s3. clear H3. intros s3.
  rewrite (guard_prefix 4 "www." s3) by done.
  assert (∀ b : bool, chars (if b then Py.slice_from 4 s3 else s3)
            = if b then drop 4 (chars s3) else chars s3) as H4
    by (intros []; [apply chars_slice_from | done]).
  rewrite <- H4. generalize (if bool_decide
    (chars "www." `prefix_of` chars s3 ∧ (4 < length (chars s3))%nat)
    then Py.slice_from 4 s3 else s3) as s4. clear H4. intros s4.
  unfold Py.len. rewrite chars_length.
  destruct (Nat.ltb_spec 100 (String.length s4)) as [Hlt|Hge].
  - rewrite bool_decide_eq_true_2 by done. apply chars_split_head.
  - rewrite bool_decide_eq_false_2 by lia. done.
Qed.

(** C6: [_process_brand] equals the five-step reference definition, with
    the steps in the documented order and under the documented length
    guards, and maps the three documented examples as stated. *)
Theorem process_brand_refines_reference :
  (∀ s : string, _process_brand s = normalize_brand s) ∧
  _process_brand "by Acme Corp" = "Acme Corp" ∧
  _process_brand "www.acme.com" = "acme" ∧
  _process_brand ("  " +:+ dq +:+ "Acme!!" +:+ dq +:+ "  ") = "Acme".
Proof.
  split; [|by vm_compute].
  intros s. apply chars_inj, process_brand_chars.
Qed.

(** ** Fixed points of the normalisation *)

Lemma len_chars (s : string) : Py.len s = length (chars s).
Proof. unfold Py.len. by rewrite chars_length. Qed.

Lemma len_slice_from (n : nat) (s : string) :
  Py.len (Py.slice_from n s) = (Py.len s - n)%nat.
Proof. by rewrite !len_chars, chars_slice_from, length_drop. Qed.

Lemma len_slice_but_last (n : nat) (s : string) :
  Py.len (Py.slice_but_last n s) = (Py.len s - n)%nat.
Proof. rewrite !len_chars, chars_slice_but_last, length_take. lia. Qed.

Lemma len_split_head (sep : ascii) (s : string) :
  (Py.len (Py.split_head sep s) ≤ Py.len s)%nat.
Proof.
  unfold Py.len. induction s as [|c s IH]; simpl; [done|].
  destruct (Ascii.eqb c sep); simpl; lia.
Qed.

Lemma prefix_empty (s : string) : String.prefix EmptyString s = true.
Proof. by destruct s. Qed.

Lemma contains_space_cons (c : ascii) (s : string) :
  Py.contains " " (String c s) = (Ascii.eqb c " " || Py.contains " " s)%bool.
Proof.
  cbn [Py.contains String.prefix].
  destruct (ascii_dec " " c) as [<-|Hne].
  - by rewrite prefix_empty.
  - destruct (Ascii.eqb_spec c " ") as [->|_]; done.
Qed.

Lemma split_head_same (s : string) :
  Py.split_head " " s = s ↔ Py.contains " " s = false.
Proof.
  induction s as [|c s IH]; [done|].
  rewrite contains_space_cons. cbn [Py.split_head].
  destruct (Ascii.eqb c " "); simpl.
  - split; intros [=].
  - rewrite <- IH. split; [by intros [=] | by intros ->].
Qed.

Lemma strip_length (cs : list ascii) (s : string) :
  (Py.len (Py.strip cs s) ≤ Py.len s)%nat.
Proof.
  unfold Py.strip. etrans; [apply rstrip_length | apply lstrip_length].
Qed.

Lemma strip_same (cs : list ascii) (s : string) :
  Py.len (Py.strip cs s) = Py.len s ↔
  outside cs (first_char s) = true ∧ outside cs (last_char s) = true.
Proof.
  unfold Py.strip. split.
  - intros Hlen.
    pose proof (rstrip_length cs (Py.lstrip cs s)).
    pose proof (lstrip_length cs s).
    assert (outside cs (first_char s) = true) as Hf by (apply lstrip_same; lia).
    split; [done|]. rewrite (lstrip_outside _ _ Hf) in Hlen.
    by apply rstrip_same.
  - intros [Hf Hl]. by rewrite (lstrip_outside _ _ Hf), (rstrip_outside _ _ Hl).
Qed.

Lemma strip_outside (cs : list ascii) (s : string) :
  outside cs (first_char s) = true → outside cs (last_char s) = true →
  Py.strip cs s = s.
Proof.
  intros Hf Hl. unfold Py.strip.
  by rewrite (lstrip_outside _ _ Hf), (rstrip_outside _ _ Hl).
Qed.

Lemma guarded_step (n : nat) (g : bool) (x y : string) :
  (0 < n)%nat →
  (g = true → (n < Py.len x)%nat ∧ Py.len y = (Py.len x - n)%nat) →
  (Py.len (if g then y else x) ≤ Py.len x)%nat ∧
  (Py.len (if g then y else x) = Py.len x → g = false).
Proof. intros Hn Hg. destruct g; [|done]. destruct Hg as [? ?]; [done|]. lia. Qed.

Lemma guard_lt (n m : nat) (b : bool) : ((n <? m)%nat && b)%bool = true → (n < m)%nat.
Proof. by intros [?%Nat.ltb_lt _]%andb_true_iff. Qed.

(** C4, as the code has it: [_process_brand] is idempotent exactly at the
    strings whose normalised value is stable, that is, has no character
    of the strip set at either end, does not trigger the ["by "], [".com"]
    or ["www."] step, and is at most 100 characters long or free of
    spaces. *)
Theorem process_brand_idempotent_iff_stable (s : string) :
  _process_brand (_process_brand s) = _process_brand s ↔
  brand_stable (_process_brand s) = true.
Proof.
  generalize (_process_brand s) as r. clear s. intros r.
  unfold brand_stable. rewrite !andb_true_iff, !negb_true_iff. split.
  - unfold _process_brand. cbv zeta.
    pose proof (strip_length STRIP_CHARS r) as H1.
    pose proof (strip_same STRIP_CHARS r) as Hsame.
    pose proof (strip_outside STRIP_CHARS r) as Hout.
    set (r1 := Py.strip STRIP_CHARS r) in *.
    set (g2 := ((3 <? Py.len r1)%nat && String.eqb (Py.slice_to 3 r1) "by ")%bool).
    pose proof (guarded_step 3 g2 r1 (Py.slice_from 3 r1)) as [L2 E2];
      [lia | intros G; split; [by apply guard_lt in G | apply len_slice_from] |].
    set (r2 := if g2 then Py.slice_from 3 r1 else r1) in *.
    set (g3 := ((4 <? Py.len r2)%nat && String.eqb (Py.slice_last 4 r2) ".com")%bool).
    pose proof (guarded_step 4 g3 r2 (Py.slice_but_last 4 r2)) as [L3 E3];
      [lia | intros G; split; [by apply guard_lt in G | apply len_slice_but_last] |].
    set (r3 := if g3 then Py.slice_but_last 4 r2 else r2) in *.
    set (g4 := ((4 <? Py.len r3)%nat && String.eqb (Py.slice_to 4 r3) "www.")%bool).
    pose proof (guarded_step 4 g4 r3 (Py.slice_from 4 r3)) as [L4 E4];
      [lia | intros G; split; [by apply guard_lt in G | apply len_slice_from] |].
    set (r4 := if g4 then Py.slice_from 4 r3 else r3) in *.
    pose proof (len_split_head " " r4) as L5.
    intros Hfix. pose proof (f_equal Py.len Hfix) as Hlen.
    assert (Py.len r4 = Py.len r) as H4
      by (destruct (100 <? Py.len r4)%nat; lia).
    assert (g4 = false) as G4 by (apply E4; lia).
    assert (g3 = false) as G3 by (apply E3; lia).
    assert (g2 = false) as G2 by (apply E2; lia).
    assert (Py.len r1 = Py.len r) as [Hf Hl]%Hsame by lia.
    specialize (Hout Hf Hl).
    subst r4 r3 r2 g4 g3 g2.
    rewrite G2 in G3, G4, Hfix. rewrite G3 in G4, Hfix. rewrite G4 in Hfix.
    clear E2 E3 E4 L2 L3 L4 L5 H4 Hlen Hsame H1. subst r1. rewrite Hout in *.
    repeat split; try done.
    apply orb_true_iff.
    destruct (Nat.ltb_spec 100 (Py.len r)) as [Hgt|Hle].
    + right. rewrite negb_true_iff. by apply split_head_same.
    + left. by apply Nat.leb_le.
  - intros [[[[[Hf Hl] G2] G3] G4] G5].
    unfold _process_brand. cbv zeta.
    rewrite (strip_outside _ _ Hf Hl), G2, G3, G4.
    destruct (Nat.ltb_spec 100 (Py.len r)) as [Hgt|Hle]; [|done].
    apply orb_true_iff in G5 as [G5%Nat.leb_le | G5%negb_true_iff]; [lia|].
    by apply split_head_same.
Qed.

(** C4, the claim as stated fails: normalising ["by by Acme"] gives
    ["by Acme"], and normalising that gives ["Acme"]. *)
Lemma process_brand_not_idempotent :
  ¬ (∀ s : string, _process_brand (_process_brand s) = _process_brand s).
Proof. intros H. specialize (H "by by Acme"). by vm_compute in H. Qed.

(** ** Node lookup *)

Lemma register_node_new (info : gmap string value) : register_node Node info = info.
Proof. unfold register_node, Node. apply (right_id_L ∅ (∪)). Qed.

Lemma getitem_try_body_unbound (idx : Z) (info : gmap string value) (self : KB) :
  getitem_try_body None idx info self = (Raise UnboundLocalError, self).
Proof. reflexivity. Qed.

Lemma getitem_spec (idx : Z) (self : KB) :
  __getitem__ idx self = (node_info_get (node_info (data self)) idx, self).
Proof.
  unfold __getitem__, sr_bind, sr_get, sr_lift, sr_try_pass, sr_ret.
  destruct (node_info_get (node_info (data self)) idx) as [info|e] eqn:Hget; [|done].
  rewrite getitem_try_body_unbound, Hget. by rewrite register_node_new.
Qed.

(** C10: the node returned by [__getitem__] has exactly the attributes of
    [node_info[idx]]; the [try] block always fails on the unassigned local
    [node], the failure is swallowed, and [self], hence [node_info[idx]],
    is as before the call. *)
Theorem getitem_returns_node_info_unchanged (self : KB) (idx : Z) :
  __getitem__ idx self = (node_info_get (node_info (data self)) idx, self) ∧
  (∀ info, getitem_try_body None idx info self = (Raise UnboundLocalError, self)).
Proof.
  split; [apply getitem_spec | intros; apply getitem_try_body_unbound].
Qed.

(** ** The capped loops *)

Lemma append_assoc (a b c : string) : (a +:+ b) +:+ c = a +:+ (b +:+ c).
Proof. apply chars_inj. by rewrite !chars_app, app_assoc. Qed.

Lemma append_empty_r (a : string) : a +:+ EmptyString = a.
Proof. apply chars_inj. by rewrite chars_app, app_nil_r. Qed.

Lemma concat_cons (e : string) (es : list string) :
  String.concat EmptyString (e :: es) = e +:+ String.concat EmptyString es.
Proof. destruct es; simpl; [by rewrite append_empty_r | done]. Qed.

Lemma capped_loop_shown {A : Type} (max_entries : Z)
    (render : nat → A → result string) (l : list A) (i : nat) (text : string) :
  capped_loop max_entries render i l text =
    (let? es := render_from render i (take (shown_from max_entries i (length l)) l) in
     Ok (text +:+ String.concat EmptyString es))%result.
Proof.
  revert i text. induction l as [|x l IH]; intros i text.
  - simpl. rewrite take_nil. simpl. by rewrite (append_empty_r text).
  - assert (∃ k, shown_from max_entries i (length (x :: l)) = S k ∧
                 (if Z.of_nat i >? max_entries then k = 0%nat
                  else k = shown_from max_entries (S i) (length l))) as (k & -> & Hk).
    { unfold shown_from. simpl length.
      exists (Z.to_nat (Z.min (Z.of_nat (S (length l))) (Z.max 1 (max_entries + 2 - Z.of_nat i))) - 1)%nat.
      split; [lia|]. destruct (Z.gtb_spec (Z.of_nat i) max_entries); lia. }
    cbn [capped_loop take render_from]. destruct (render i x) as [e|err]; [|done].
    cbn [result_bind].
    destruct (Z.of_nat i >? max_entries).
    + subst k. by rewrite take_0.
    + subst k. rewrite IH.
      destruct (render_from render (S i) _) as [es|err]; [|done].
      cbn [result_bind]. by rewrite concat_cons, append_assoc.
Qed.

Lemma insert_rank_length (x : Z * nat) (l : list (Z * nat)) :
  length (insert_rank x l) = S (length l).
Proof.
  induction l as [|y l IH]; simpl; [done|].
  destruct (x.1 <=? y.1); simpl; [done | by rewrite IH].
Qed.

Lemma stable_argsort_length (a : list Z) : length (stable_argsort a) = length a.
Proof.
  unfold stable_argsort. rewrite length_fmap.
  rewrite <- (length_imap (λ i v, (v, i)) a).
  induction (imap (λ i v, (v, i)) a) as [|x l IH]; simpl; [done|].
  by rewrite insert_rank_length, IH.
Qed.

Lemma result_map_length {A B : Type} (f : A → result B) (l : list A) (r : list B) :
  result_map f l = Ok r → length r = length l.
Proof.
  revert r. induction l as [|x l IH]; intros r; simpl.
  - by intros [= <-].
  - destruct (f x); [|done]. simpl.
    destruct (result_map f l) as [ys|]; [|done]. simpl.
    intros [= <-]. simpl. by rewrite (IH ys).
Qed.

Lemma ranks_ok_length (argsort_neg : list Z → list nat) (scores : list Z) :
  ranks_ok argsort_neg → length (argsort_neg scores) = length scores.
Proof. intros H. by rewrite (H scores), length_seq. Qed.

Lemma review_ranks_length (argsort_neg : list Z → list nat)
    (l : list (gmap string (option string))) (ranks : list nat) :
  ranks_ok argsort_neg →
  review_ranks argsort_neg l = Ok ranks → length ranks = length l.
Proof.
  intros Hok. unfold review_ranks.
  destruct (result_map vote_score l) as [scores|] eqn:Hs; [|done].
  simpl. intros [= <-]. rewrite ranks_ok_length by done.
  by apply result_map_length in Hs.
Qed.

Lemma shown_from_0 (max_entries : Z) (n : nat) :
  shown_from max_entries 0 n = shown_entries max_entries n.
Proof. unfold shown_from, shown_entries. by rewrite Z.sub_0_r. Qed.

Lemma ranked_loop_shown (argsort_neg : list Z → list nat) (max_entries : Z)
    (render : nat → nat → result string)
    (l : list (gmap string (option string))) (text : string) :
  ranks_ok argsort_neg →
  (let? ranks := review_ranks argsort_neg l in
   capped_loop max_entries render 0 ranks text)%result =
  (let? ranks := review_ranks argsort_neg l in
   let? es := render_from render 0 (take (shown_entries max_entries (length l)) ranks) in
   Ok (text +:+ String.concat EmptyString es))%result.
Proof.
  intros Hok.
  destruct (review_ranks argsort_neg l) as [ranks|e] eqn:Hr; [|done]. cbn [result_bind].
  by rewrite capped_loop_shown, shown_from_0, (review_ranks_length _ _ _ Hok Hr).
Qed.

(** The two capped sections of the document, by the entries they show. *)
Lemma doc_review_text_shown (py_repr : value → string)
    (argsort_neg : list Z → list nat) (max_entries : Z)
    (l : list (gmap string (option string))) :
  ranks_ok argsort_neg →
  doc_review_text py_repr argsort_neg max_entries (VRecs l) =
    (if decide (l = []) then Ok EmptyString
     else
       let? ranks := review_ranks argsort_neg l in
       let? es := render_from (doc_review_entry py_repr l) 0
                    (take (shown_entries max_entries (length l)) ranks) in
       Ok (("- reviews: " +:+ nl) +:+ String.concat EmptyString es))%result.
Proof.
  intros Hok. destruct l as [|r l]; [done|]. rewrite decide_False by done.
  unfold doc_review_text. cbn [py_len record_items result_bind length Nat.eqb].
  by apply (ranked_loop_shown argsort_neg max_entries (doc_review_entry py_repr (r :: l))).
Qed.

Lemma doc_qa_text_shown (py_repr : value → string) (max_entries : Z)
    (l : list (gmap string (option string))) :
  doc_qa_text py_repr max_entries (VRecs l) =
    (if decide (l = []) then Ok EmptyString
     else
       let? es := render_from (doc_qa_entry py_repr) 0
                    (take (shown_entries max_entries (length l)) l) in
       Ok (("- Q&A: " +:+ nl) +:+ String.concat EmptyString es))%result.
Proof.
  destruct l as [|r l]; [done|]. rewrite decide_False by done.
  unfold doc_qa_text. cbn [py_len record_items result_bind length Nat.eqb].
  by rewrite capped_loop_shown, shown_from_0.
Qed.

(** What the four capped loops do: out of [n] reviews (or Q&A pairs)
    those of [get_doc_info] and [get_chunk_info] render exactly
    [min n (max 1 (max_entries + 2))] entries, because the check
    [i > max_entries] runs after entry [i] has been appended.  That is
    two more than [max_entries], which the constructor documents as the
    maximum number of entries to show. *)
Theorem review_qa_entries_shown (py_repr : value → string)
    (argsort_neg : list Z → list nat) (max_entries : Z)
    (l : list (gmap string (option string))) :
  ranks_ok argsort_neg →
  let k := shown_entries max_entries (length l) in
  Z.of_nat k = Z.min (Z.of_nat (length l)) (Z.max 1 (max_entries + 2)) ∧
  doc_review_text py_repr argsort_neg max_entries (VRecs l) =
    (if decide (l = []) then Ok EmptyString
     else
       let? ranks := review_ranks argsort_neg l in
       let? es := render_from (doc_review_entry py_repr l) 0 (take k ranks) in
       Ok (("- reviews: " +:+ nl) +:+ String.concat EmptyString es))%result ∧
  doc_qa_text py_repr max_entries (VRecs l) =
    (if decide (l = []) then Ok EmptyString
     else
       let? es := render_from (doc_qa_entry py_repr) 0 (take k l) in
       Ok (("- Q&A: " +:+ nl) +:+ String.concat EmptyString es))%result ∧
  chunk_of py_repr argsort_neg max_entries "review" (VRecs l) =
    (if decide (l = []) then Ok (VStr EmptyString)
     else
       let? ranks := review_ranks argsort_neg l in
       let? es := render_from (chunk_review_entry py_repr l) 0 (take k ranks) in
       Ok (VStr (String.concat EmptyString es)))%result ∧
  chunk_of py_repr argsort_neg max_entries "qa" (VRecs l) =
    (if decide (l = []) then Ok (VStr EmptyString)
     else
       let? es := render_from (chunk_qa_entry py_repr) 0 (take k l) in
       Ok (VStr (String.concat EmptyString es)))%result.
Proof.
  intros Hok k. split; [unfold k, shown_entries; lia|].
  split; [by apply doc_review_text_shown|]. split; [apply doc_qa_text_shown|].
  destruct l as [|r l]; [by split|].
  rewrite decide_False by done. unfold chunk_of.
  change (Py.contains "feature" "review") with false.
  change (Py.contains "review" "review") with true.
  change (Py.contains "feature" "qa") with false.
  change (Py.contains "review" "qa") with false.
  change (Py.contains "qa" "qa") with true.
  cbn [py_len record_items result_bind length Nat.eqb].
  split.
  - pose proof (ranked_loop_shown argsort_neg max_entries
                 (chunk_review_entry py_repr (r :: l)) (r :: l) EmptyString Hok) as H.
    destruct (review_ranks argsort_neg (r :: l)) as [ranks|e]; [|done].
    cbn [result_bind] in *. rewrite H.
    by destruct (render_from _ _ _).
  - rewrite capped_loop_shown, shown_from_0. fold k.
    by destruct (render_from _ _ _).
Qed.


(** C1, the code against its own documentation: the constructor
    documents [max_entries] as the maximum number of review and Q&A
    entries to show, and the claim allows [max_entries + 1]; with
    [max_entries = 0] and two reviews the document shows both.  The votes
    of the two reviews differ, so their order is the same for every sort. *)
Lemma review_cap_exceeded :
  (get_doc_info sample_repr id stable_argsort_neg 0 false false
     (sample_kb 0 (sample_product [] two_reviews))).1 =
    Ok ("- product: Tent" +:+ nl +:+ "- reviews: " +:+ nl +:+
        "#2:" +:+ nl +:+ "summary: bad" +:+ nl +:+
        "text: " +:+ dq +:+ "leaks" +:+ dq +:+ nl +:+
        "#1:" +:+ nl +:+ "summary: good" +:+ nl +:+
        "text: " +:+ dq +:+ "sturdy" +:+ dq +:+ nl) ∧
  ¬ (∃ k : nat,
       Z.of_nat k ≤ max_entries (sample_kb 0 (sample_product [] two_reviews)) + 1 ∧
       doc_review_text sample_repr stable_argsort_neg 0 (VRecs two_reviews) =
         (let? ranks := review_ranks stable_argsort_neg two_reviews in
          let? es := render_from (doc_review_entry sample_repr two_reviews) 0
                       (take k ranks) in
          Ok (("- reviews: " +:+ nl) +:+ String.concat EmptyString es))%result).
Proof.
  split; [by vm_compute|].
  intros (k & Hk & H). simpl in Hk.
  assert (k = 0 ∨ k = 1)%nat as [-> | ->] by lia; by vm_compute in H.
Qed.

(** ** The features section *)

Lemma doc_feature_loop_kept (l : list string) (i : nat) (text : string) :
  doc_feature_loop i l text =
    text +:+ String.concat EmptyString (feature_line <$> kept_features i l).
Proof.
  revert i text. induction l as [|f l IH]; intros i text.
  - simpl. by rewrite (append_empty_r text).
  - cbn [doc_feature_loop kept_features].
    destruct (String.eqb f EmptyString); [apply IH|].
    destruct (Py.contains "asin" (Py.lower f)); [apply IH|].
    cbn [orb fmap list_fmap]. rewrite IH.
    change (feature_line <$> kept_features (S i) l)
      with (list_fmap _ _ feature_line (kept_features (S i) l)).
    rewrite concat_cons. apply append_assoc.
Qed.

Lemma chunk_feature_loop_kept (l : list string) (i : nat) (features : list string) :
  chunk_feature_loop l features = features ++ (kept_features i l).*2.
Proof.
  revert i features. induction l as [|f l IH]; intros i features.
  - simpl. by rewrite app_nil_r.
  - cbn [chunk_feature_loop kept_features].
    destruct (String.eqb f EmptyString); [apply IH|].
    destruct (Py.contains "asin" (Py.lower f)); [apply IH|].
    cbn [orb]. rewrite (IH (S i)). by rewrite <- app_assoc.
Qed.

Lemma doc_feature_text_kept (l : list string) :
  doc_feature_text (VStrs l) =
    Ok (if decide (l = []) then EmptyString
        else ("- features: " +:+ nl) +:+
             String.concat EmptyString (feature_line <$> kept_features 0 l)).
Proof.
  destruct l as [|f l]; [done|]. rewrite decide_False by done.
  unfold doc_feature_text. cbn [py_len length Nat.eqb result_bind feature_items].
  by rewrite doc_feature_loop_kept.
Qed.

(** C5, as the code has it: the features section is the header line
    followed by one line per kept entry whenever the feature list is not
    empty, so it is absent exactly when the list itself is empty; a
    non-empty list whose entries are all filtered out leaves the header
    line alone.  The feature chunk, which has no header, is the kept
    entries joined by spaces. *)
Theorem feature_section_rendering (py_repr : value → string)
    (argsort_neg : list Z → list nat) (max_entries : Z) (l : list string) :
  doc_feature_text (VStrs l) =
    Ok (if decide (l = []) then EmptyString
        else ("- features: " +:+ nl) +:+
             String.concat EmptyString (feature_line <$> kept_features 0 l)) ∧
  (doc_feature_text (VStrs l) = Ok EmptyString ↔ l = []) ∧
  chunk_of py_repr argsort_neg max_entries "feature" (VStrs l) =
    Ok (VStr (Py.join " " (kept_features 0 l).*2)).
Proof.
  pose proof (doc_feature_text_kept l) as H.
  split; [done|]. split.
  - rewrite H. destruct l as [|f l]; [done|]. rewrite decide_False by done.
    split; [|done]. intros [=].
  - unfold chunk_of. change (Py.contains "feature" "feature") with true.
    destruct l as [|f l]; [done|].
    cbn [py_len length Nat.eqb result_bind feature_items].
    by rewrite (chunk_feature_loop_kept _ 0%nat).
Qed.

(** C5, the claim as stated fails: every entry of the feature list
    [[""; "ASIN: B000"]] is filtered out, and the document still has the
    line ["- features: "]. *)
Lemma feature_header_remains :
  kept_features 0 [EmptyString; "ASIN: B000"] = [] ∧
  doc_feature_text (VStrs [EmptyString; "ASIN: B000"]) = Ok ("- features: " +:+ nl) ∧
  (get_doc_info sample_repr id stable_argsort_neg 0 false false
     (sample_kb 25 (sample_product [EmptyString; "ASIN: B000"] []))).1 =
    Ok ("- product: Tent" +:+ nl +:+ "- features: " +:+ nl).
Proof. by vm_compute. Qed.

(** ** Rendering never fails on well-shaped records *)

Lemma insert_rank_elem (x y : Z * nat) (l : list (Z * nat)) :
  y ∈ insert_rank x l ↔ y = x ∨ y ∈ l.
Proof.
  induction l as [|z l IH]; simpl.
  - rewrite list_elem_of_singleton, elem_of_nil. tauto.
  - destruct (x.1 <=? z.1); rewrite !elem_of_cons; [done|].
    rewrite IH. tauto.
Qed.

Lemma insert_rank_perm (x : Z * nat) (l : list (Z * nat)) : insert_rank x l ≡ₚ x :: l.
Proof.
  induction l as [|y l IH]; simpl; [done|].
  destruct (x.1 <=? y.1); [done|]. rewrite IH. apply Permutation_swap.
Qed.

Lemma ranked_perm (l : list (Z * nat)) : foldr insert_rank [] l ≡ₚ l.
Proof.
  induction l as [|x l IH]; simpl; [done|]. by rewrite insert_rank_perm, IH.
Qed.

Lemma stable_argsort_perm (a : list Z) : stable_argsort a ≡ₚ seq 0 (length a).
Proof.
  unfold stable_argsort. rewrite ranked_perm, fmap_imap.
  rewrite (imap_ext _ (λ j _, id j)) by done.
  by rewrite imap_seq_0, list_fmap_id.
Qed.

(** The insertion sort is one of the sorts [ranks_ok] admits. *)
Lemma stable_argsort_neg_ok : ranks_ok stable_argsort_neg.
Proof.
  intros scores. unfold stable_argsort_neg.
  by rewrite stable_argsort_perm, length_fmap.
Qed.

Lemma ranks_ok_lt (argsort_neg : list Z → list nat) (scores : list Z) (i : nat) :
  ranks_ok argsort_neg → i ∈ argsort_neg scores → (i < length scores)%nat.
Proof.
  intros Hok Hi. rewrite (Hok scores) in Hi.
  apply elem_of_seq in Hi. lia.
Qed.

Lemma vote_score_ok (r : gmap string (option string)) :
  wf_review r → ∃ z, vote_score r = Ok z.
Proof.
  intros [[Hv | (s & z & Hv & Hz)] _]; unfold vote_score, record_get; rewrite Hv; simpl; eauto.
Qed.

Lemma review_ranks_ok (argsort_neg : list Z → list nat)
    (rv : list (gmap string (option string))) :
  ranks_ok argsort_neg →
  Forall wf_review rv →
  ∃ ranks, review_ranks argsort_neg rv = Ok ranks ∧ length ranks = length rv ∧
           ∀ i, i ∈ ranks → (i < length rv)%nat.
Proof.
  intros Hok Hwf. unfold review_ranks.
  assert (∃ scores, result_map vote_score rv = Ok scores) as [scores Hs].
  { induction Hwf as [|r rv Hr _ [scores IH]]; simpl; [eauto|].
    destruct (vote_score_ok r Hr) as [z ->]. rewrite IH. simpl. eauto. }
  rewrite Hs. simpl. eexists. split; [done|].
  pose proof (result_map_length _ _ _ Hs) as Hlen.
  split; [by rewrite (ranks_ok_length _ _ Hok)|].
  intros i Hi. apply (ranks_ok_lt _ _ _ Hok) in Hi. by rewrite Hlen in Hi.
Qed.

Lemma render_from_ok {A : Type} (render : nat → A → result string) (l : list A) (i : nat) :
  (∀ j x, x ∈ l → ∃ e, render j x = Ok e) →
  ∃ es, render_from render i l = Ok es ∧ length es = length l.
Proof.
  revert i. induction l as [|x l IH]; intros i H; simpl; [eauto|].
  destruct (H i x) as [e ->]; [left|]. simpl.
  destruct (IH (S i)) as (es & -> & Hlen); [intros; apply H; by right|].
  simpl. eexists. split; [done|]. simpl. by rewrite Hlen.
Qed.

Lemma doc_review_entry_ok (py_repr : value → string)
    (rv : list (gmap string (option string))) (j idx : nat) :
  Forall wf_review rv → (idx < length rv)%nat →
  ∃ e, doc_review_entry py_repr rv j idx = Ok e.
Proof.
  intros Hwf Hlt. destruct (lookup_lt_is_Some_2 rv idx Hlt) as [r Hr].
  destruct (proj1 (Forall_lookup _ _) Hwf idx r Hr) as (_ & [s Hs] & [t Ht]).
  unfold doc_review_entry, record_get. rewrite Hr. simpl. rewrite Hs. simpl.
  rewrite Ht. simpl. eauto.
Qed.

Lemma doc_qa_entry_ok (py_repr : value → string) (j : nat)
    (r : gmap string (option string)) :
  wf_qa r → ∃ e, doc_qa_entry py_repr j r = Ok e.
Proof.
  intros ([q Hq] & [a Ha]). unfold doc_qa_entry, record_get.
  rewrite Hq. simpl. rewrite Ha. simpl. eauto.
Qed.

Lemma shown_entries_pos (max_entries : Z) (n : nat) :
  (0 < n)%nat → (0 < shown_entries max_entries n ≤ n)%nat.
Proof. unfold shown_entries. lia. Qed.

Lemma section_cons (header e : string) (es : list string) :
  section header (e :: es) = header +:+ nl +:+ String.concat EmptyString (e :: es).
Proof. done. Qed.

Lemma doc_review_text_ok (py_repr : value → string)
    (argsort_neg : list Z → list nat) (max_entries : Z)
    (rv : list (gmap string (option string))) :
  ranks_ok argsort_neg →
  Forall wf_review rv →
  ∃ ranks es,
    review_ranks argsort_neg rv = Ok ranks ∧
    render_from (doc_review_entry py_repr rv) 0
      (take (shown_entries max_entries (length rv)) ranks) = Ok es ∧
    doc_review_text py_repr argsort_neg max_entries (VRecs rv) =
      Ok (section "- reviews: " es).
Proof.
  intros Hok Hwf.
  destruct (review_ranks_ok argsort_neg rv Hok Hwf) as (ranks & Hranks & Hlen & Hlt).
  destruct (render_from_ok (doc_review_entry py_repr rv)
              (take (shown_entries max_entries (length rv)) ranks) 0) as (es & Hes & Hles).
  { intros j idx Hin. apply doc_review_entry_ok; [done|].
    apply Hlt. by apply (subseteq_take _ _ _ Hin). }
  exists ranks, es. split; [done|]. split; [done|].
  rewrite doc_review_text_shown by done.
  destruct rv as [|r rv].
  - rewrite decide_True by done. destruct ranks; [|done].
    rewrite take_nil in Hes. by injection Hes as <-.
  - rewrite decide_False by done. rewrite Hranks. cbn [result_bind].
    rewrite Hes. cbn [result_bind].
    destruct es as [|e es]; [|by rewrite section_cons, append_assoc].
    rewrite length_take in Hles.
    pose proof (shown_entries_pos max_entries (length (r :: rv))) as Hpos.
    simpl in *. lia.
Qed.

Lemma doc_qa_text_ok (py_repr : value → string) (max_entries : Z)
    (qa : list (gmap string (option string))) :
  Forall wf_qa qa →
  ∃ es,
    render_from (doc_qa_entry py_repr) 0
      (take (shown_entries max_entries (length qa)) qa) = Ok es ∧
    doc_qa_text py_repr max_entries (VRecs qa) = Ok (section "- Q&A: " es).
Proof.
  intros Hwf.
  destruct (render_from_ok (doc_qa_entry py_repr)
              (take (shown_entries max_entries (length qa)) qa) 0) as (es & Hes & Hles).
  { intros j r Hin%subseteq_take. apply doc_qa_entry_ok.
    by apply (proj1 (Forall_forall _ _) Hwf). }
  exists es. split; [done|].
  rewrite doc_qa_text_shown.
  destruct qa as [|r qa].
  - rewrite decide_True by done. rewrite take_nil in Hes. by injection Hes as <-.
  - rewrite decide_False by done. rewrite Hes. cbn [result_bind].
    destruct es as [|e es]; [|by rewrite section_cons, append_assoc].
    rewrite length_take in Hles.
    pose proof (shown_entries_pos max_entries (length (r :: qa))) as Hpos.
    simpl in *. lia.
Qed.

Lemma doc_description_text_strs (d : list string) :
  doc_description_text (VStrs d) = Ok (description_line d).
Proof.
  destruct d as [|x d]; [done|].
  unfold doc_description_text, description_line.
  cbn [py_len length Nat.eqb result_bind join_items].
  by destruct (0 <? _)%nat.
Qed.

Lemma doc_feature_text_strs (f : list string) :
  doc_feature_text (VStrs f) = Ok (features_section f).
Proof.
  rewrite doc_feature_text_kept.
  unfold features_section. destruct (decide (f = [])); [done|].
  by rewrite append_assoc.
Qed.

Lemma product_doc_ok (py_repr : value → string)
    (argsort_neg : list Z → list nat) (max_entries : Z)
    (node : gmap string value) (title : value) (d f : list string)
    (rv qa : list (gmap string (option string))) :
  ranks_ok argsort_neg →
  node !! "title" = Some title →
  node !! "description" = Some (VStrs d) →
  node !! "feature" = Some (VStrs f) →
  node !! "review" = Some (VRecs rv) → Forall wf_review rv →
  node !! "qa" = Some (VRecs qa) → Forall wf_qa qa →
  ∃ ranks rev_es qa_es,
    review_ranks argsort_neg rv = Ok ranks ∧
    render_from (doc_review_entry py_repr rv) 0
      (take (shown_entries max_entries (length rv)) ranks) = Ok rev_es ∧
    render_from (doc_qa_entry py_repr) 0
      (take (shown_entries max_entries (length qa)) qa) = Ok qa_es ∧
    product_doc py_repr argsort_neg max_entries node =
      Ok ("- product: " +:+ py_str py_repr title +:+ nl +:+
          brand_line py_repr node +:+ dimensions_lines node +:+
          description_line d +:+ features_section f +:+
          section "- reviews: " rev_es +:+ section "- Q&A: " qa_es).
Proof.
  intros Hok Ht Hd Hf Hrv Hwr Hqa Hwq.
  destruct (doc_review_text_ok py_repr argsort_neg max_entries rv Hok Hwr)
    as (ranks & rev_es & Hr & Hre & Hrt).
  destruct (doc_qa_text_ok py_repr max_entries qa Hwq) as (qa_es & Hqe & Hqt).
  exists ranks, rev_es, qa_es. repeat (split; [done|]).
  unfold product_doc, getattr, hasattr, brand_line, dimensions_lines.
  rewrite Ht, Hd, Hf, Hrv, Hqa. cbn [result_bind].
  rewrite doc_description_text_strs, doc_feature_text_strs, Hrt, Hqt.
  cbn [result_bind].
  destruct (node !! "brand") as [b|]; cbn [result_bind];
    [rewrite bool_decide_eq_true_2 by eauto
    |rewrite bool_decide_eq_false_2 by (by intros [? ?])];
    cbn [result_bind];
    destruct (product_dimensions node) as [[dims w]|e];
    f_equal; apply chars_inj; rewrite ?chars_app;
    change (chars EmptyString) with (@nil ascii); rewrite ?app_nil_l;
    by rewrite <- ?app_assoc.
Qed.

Lemma node_info_get_lookup (ni : list (gmap string value)) (idx : Z)
    (node : gmap string value) :
  0 ≤ idx → ni !! Z.to_nat idx = Some node → node_info_get ni idx = Ok node.
Proof.
  intros H0 H. unfold node_info_get.
  destruct (Z.ltb_spec idx 0); [lia|]. by rewrite H.
Qed.

Lemma node_types_get_lookup (nt : list nat) (idx : Z) (t : nat) :
  0 ≤ idx → nt !! Z.to_nat idx = Some t → node_types_get nt idx = Ok t.
Proof.
  intros H0 H. unfold node_types_get. pose proof (lookup_lt_Some _ _ _ H).
  destruct (Z.ltb_spec idx 0); [lia|].
  destruct (Z.leb_spec 0 idx); [|lia].
  destruct (Z.ltb_spec idx (Z.of_nat (length nt))); [|lia].
  simpl. by rewrite H.
Qed.

Lemma rel_titles_ok (py_repr : value → string) (self : KB) (l : list Z) (k : nat) :
  Forall (λ i, ∃ n s, node_info_get (node_info (data self)) i = Ok n ∧
                      n !! "title" = Some (VStr s)) l →
  ∃ es, rel_titles k l self = (Ok es, self).
Proof.
  intros H. revert k. induction H as [|i l (n & s & Hn & Hs) _ IH]; intros k.
  - by eexists.
  - destruct (IH (S k)) as [es Hes].
    cbn [rel_titles]. unfold sr_bind, sr_lift, sr_ret, getattr, as_str.
    rewrite getitem_spec, Hn, Hs, Hes. by eexists.
Qed.

Lemma get_rel_info_ok (py_repr : value → string) (self : KB) (idx : Z) :
  wf_neighbors self idx → ∃ rel, get_rel_info py_repr idx self = (Ok rel, self).
Proof.
  intros [[Hbuy Hview]%Forall_app Hbrand].
  destruct (rel_titles_ok py_repr self _ 0 Hbuy) as [es1 H1].
  destruct (rel_titles_ok py_repr self _ 0 Hview) as [es2 H2].
  unfold get_rel_info, sr_bind, sr_get, sr_lift, sr_ret.
  rewrite H1, H2.
  destruct (get_neighbor_nodes self idx "has_brand") as [|b bs]; [by eexists|].
  destruct (Hbrand b eq_refl) as (n & Hn & [v Hv]).
  unfold sr_bind, sr_lift, sr_ret, getattr. rewrite getitem_spec, Hn, Hv.
  by eexists.
Qed.




(** ** The category check *)

(** Decidable closed goals, settled by evaluation. *)
Ltac decide_vm :=
  match goal with
  | |- ?P => apply (@bool_decide_unpack P _); vm_compute; exact I
  end.

Lemma select_categories_invalid (categories : list string) :
  "all" ∉ categories → (∃ c, c ∈ categories ∧ c ∉ COMMON) →
  select_categories categories = Raise InvalidCategoryError.
Proof.
  intros Hall (c & Hc & Hout). unfold select_categories.
  rewrite bool_decide_eq_false_2 by done.
  destruct (list_difference (remove_dups categories) COMMON) as [|x l] eqn:Hd; [|done].
  assert (c ∈ list_difference (remove_dups categories) COMMON) as Hin
    by (apply list_elem_of_difference; split; [by apply elem_of_remove_dups | done]).
  rewrite Hd in Hin. by apply elem_of_nil in Hin.
Qed.

Lemma select_categories_valid (categories : list string) :
  "all" ∉ categories → (∀ c, c ∈ categories → c ∈ COMMON) →
  select_categories categories = Ok (categories, categories).
Proof.
  intros Hall Hin. unfold select_categories.
  rewrite bool_decide_eq_false_2 by done.
  destruct (list_difference (remove_dups categories) COMMON) as [|x l] eqn:Hd; [done|].
  assert (x ∈ list_difference (remove_dups categories) COMMON) as Hx
    by (rewrite Hd; left).
  apply list_elem_of_difference in Hx as [Hx Hout].
  apply (proj1 (elem_of_remove_dups _ _)) in Hx.
  destruct Hout. by apply Hin.
Qed.

(** C9: when the category list does not contain ["all"], a category
    outside the allow-list [COMMON] makes [_process_raw] fail with the
    allow-list failure before anything is downloaded, read, loaded or
    saved, the world being as it was; and when every category is in the
    allow-list the check passes with the categories as requested. *)
Theorem invalid_category_rejected (raw_data_dir processed_data_dir : string)
    (read_review read_qa : string → list row)
    (construct_raw_node_info : linked → result (list (gmap string value)))
    (create_raw_product_graph :
       linked → list string → result ((list nat * list nat) * list nat))
    (categories : list string) :
  "all" ∉ categories →
  ((∃ c, c ∈ categories ∧ c ∉ COMMON) →
   ∀ w, _process_raw raw_data_dir processed_data_dir read_review read_qa
          construct_raw_node_info create_raw_product_graph categories w =
        (Raise InvalidCategoryError, w)) ∧
  ((∀ c, c ∈ categories → c ∈ COMMON) →
   select_categories categories = Ok (categories, categories)).
Proof.
  intros Hall. split.
  - intros Hbad w. unfold _process_raw, sr_bind, sr_lift.
    by rewrite (select_categories_invalid _ Hall Hbad).
  - by apply select_categories_valid.
Qed.

Lemma invalid_category_rejected_witness :
  (∀ w, _process_raw "data/raw" "data/processed" (λ _, []) (λ _, [])
          (λ _, Ok []) (λ _ _, Ok (([], []), [])) ["Electronics"; "Books"] w =
        (Raise InvalidCategoryError, w)) ∧
  select_categories ["Electronics"; "Video_Games"] =
    Ok (["Electronics"; "Video_Games"], ["Electronics"; "Video_Games"]).
Proof.
  split.
  - apply (invalid_category_rejected "data/raw" "data/processed" (λ _, []) (λ _, [])
             (λ _, Ok []) (λ _ _, Ok (([], []), [])) ["Electronics"; "Books"]).
    + decide_vm.
    + exists "Books". split; decide_vm.
  - apply (invalid_category_rejected "data/raw" "data/processed" (λ _, []) (λ _, [])
             (λ _, Ok []) (λ _ _, Ok (([], []), [])) ["Electronics"; "Video_Games"]).
    + decide_vm.
    + apply Forall_forall. decide_vm.
Defined.

(** ** Record linking *)

Lemma select_columns_asin (columns : list string) (df : list row) :
  asin <$> select_columns columns df = asin <$> df.
Proof. unfold select_columns. rewrite <- list_fmap_compose. by apply list_fmap_ext. Qed.

Lemma filter_ext_in {A : Type} (P Q : A → Prop) `{∀ x, Decision (P x)}
    `{∀ x, Decision (Q x)} (l : list A) :
  (∀ x, x ∈ l → P x ↔ Q x) → filter P l = filter Q l.
Proof.
  induction l as [|x l IH]; intros Hext; [done|].
  rewrite !filter_cons.
  rewrite IH by (intros y Hy; apply Hext; by right).
  destruct (decide (P x)) as [HP|HP], (decide (Q x)) as [HQ|HQ]; try done;
    exfalso; (apply HQ + apply HP); by apply (Hext x); [left|].
Qed.

Lemma filter_fmap {A B : Type} (f : A → B) (P : B → Prop) `{∀ x, Decision (P x)}
    (l : list A) :
  filter P (f <$> l) = f <$> filter (λ x, P (f x)) l.
Proof.
  induction l as [|x l IH]; [done|].
  rewrite fmap_cons, !filter_cons, IH. by destruct (decide (P (f x))).
Qed.

Lemma select_columns_isin (columns keys : list string) (df : list row) :
  isin_asin keys (select_columns columns df) = select_columns columns (isin_asin keys df).
Proof. unfold isin_asin, select_columns. by rewrite filter_fmap. Qed.

Lemma drop_duplicates_from_keys (seen : gset string) (df : list row) (k : string) :
  k ∈ asin <$> drop_duplicates_from seen df ↔ k ∈ asin <$> df ∧ k ∉ seen.
Proof.
  revert seen. induction df as [|r df IH]; intros seen; simpl.
  - rewrite elem_of_nil. tauto.
  - case_bool_decide as Hr.
    + rewrite IH, ?fmap_cons, elem_of_cons.
      destruct (decide (k = asin r)) as [->|]; naive_solver.
    + rewrite ?fmap_cons, !elem_of_cons, IH, elem_of_union, elem_of_singleton.
      destruct (decide (k = asin r)) as [->|]; naive_solver.
Qed.

Lemma drop_duplicates_from_NoDup (seen : gset string) (df : list row) :
  NoDup (asin <$> drop_duplicates_from seen df).
Proof.
  revert seen. induction df as [|r df IH]; intros seen; simpl; [constructor|].
  case_bool_decide as Hr; [apply IH|].
  rewrite ?fmap_cons. constructor; [|apply IH].
  rewrite drop_duplicates_from_keys, elem_of_union, elem_of_singleton. tauto.
Qed.

Lemma drop_duplicates_from_sublist (seen : gset string) (df : list row) :
  drop_duplicates_from seen df `sublist_of` df.
Proof.
  revert seen. induction df as [|r df IH]; intros seen; simpl; [done|].
  case_bool_decide; [by apply sublist_cons | by apply sublist_skip].
Qed.

(** A row survives [drop_duplicates] exactly when it is the first row of
    the frame with its key. *)
Lemma drop_duplicates_from_first (seen : gset string) (df : list row) (r : row) :
  r ∈ drop_duplicates_from seen df ↔
  asin r ∉ seen ∧
  ∃ i, df !! i = Some r ∧ ∀ j r', (j < i)%nat → df !! j = Some r' → asin r' ≠ asin r.
Proof.
  revert seen. induction df as [|r0 df IH]; intros seen; simpl.
  - rewrite elem_of_nil. split; [done|]. by intros (_ & i & ? & _).
  - case_bool_decide as Hr.
    + rewrite IH. split.
      * intros (Hs & i & Hi & Hfirst). split; [done|]. exists (S i). split; [done|].
        intros [|j] r' Hj Hr'; simpl in Hr'; [congruence|].
        apply (Hfirst j); [lia | done].
      * intros (Hs & [|i] & Hi & Hfirst); simpl in Hi; [congruence|].
        split; [done|]. exists i. split; [done|].
        intros j r' Hj Hr'. apply (Hfirst (S j)); [lia | done].
    + rewrite elem_of_cons, IH. split.
      * intros [-> | (Hs & i & Hi & Hfirst)].
        { split; [done|]. exists 0%nat. split; [done|]. intros; lia. }
        split; [set_solver|]. exists (S i). split; [done|].
        intros [|j] r' Hj Hr'; simpl in Hr'; [set_solver|].
        apply (Hfirst j); [lia | done].
      * intros (Hs & [|i] & Hi & Hfirst); simpl in Hi; [left; congruence|].
        right. split.
        { pose proof (Hfirst 0%nat r0 ltac:(lia) eq_refl). set_solver. }
        exists i. split; [done|].
        intros j r' Hj Hr'. apply (Hfirst (S j)); [lia | done].
Qed.

Lemma merge_keys (left right : list row) (k : string) :
  k ∈ asin <$> merge left right ↔ k ∈ asin <$> left ∧ k ∈ asin <$> right.
Proof.
  unfold merge. rewrite !list_elem_of_fmap. split.
  - intros (x & -> & (l & Hx & Hl)%list_elem_of_bind).
    apply list_elem_of_fmap in Hx as (r & -> & [Hr Hin]%list_elem_of_filter).
    simpl. split; [by exists l | exists r; by rewrite Hr].
  - intros [(l & -> & Hl) (r & Hr & Hin)].
    exists {| asin := asin l; cells := cells l ∪ cells r |}. split; [done|].
    apply list_elem_of_bind. exists l. split; [|done].
    apply list_elem_of_fmap. exists r. split; [done|].
    by apply list_elem_of_filter.
Qed.

Lemma unique_insert_elem (x y : string) (l : list string) :
  y ∈ unique_insert x l ↔ y = x ∨ y ∈ l.
Proof.
  induction l as [|z l IH]; simpl.
  - rewrite list_elem_of_singleton, elem_of_nil. tauto.
  - destruct (String.compare x z) eqn:Hc; rewrite ?elem_of_cons, ?IH; try tauto.
    apply String.compare_eq_iff in Hc as ->. tauto.
Qed.

Lemma np_unique_elem (x : string) (l : list string) : x ∈ np_unique l ↔ x ∈ l.
Proof.
  unfold np_unique. induction l as [|y l IH]; simpl; [done|].
  by rewrite unique_insert_elem, IH, elem_of_cons.
Qed.

Lemma get_map_from_asin2id (df : list row) (idx : nat)
    (maps : gmap string nat * gmap nat string) (k : string) (i : nat) :
  NoDup (asin <$> df) →
  (get_map_from idx df maps).1 !! k = Some i ↔
  (∃ j, (asin <$> df) !! j = Some k ∧ i = (idx + j)%nat) ∨
  (k ∉ asin <$> df ∧ maps.1 !! k = Some i).
Proof.
  revert idx maps. induction df as [|r df IH]; intros idx maps Hnd.
  - simpl. split; [intros; right; split; [apply not_elem_of_nil | done]|].
    intros [(j & Hj & _) | [_ ?]]; [done | done].
  - rewrite fmap_cons in Hnd. apply NoDup_cons in Hnd as [Hr Hnd].
    cbn [get_map_from]. rewrite IH by done. cbn [fst]. rewrite fmap_cons. split.
    + intros [(j & Hj & ->) | [Hk Hm]].
      * left. exists (S j). split; [done | lia].
      * destruct (decide (asin r = k)) as [<-|Hne].
        { rewrite lookup_insert_eq in Hm. injection Hm as <-.
          left. exists 0%nat. split; [done | lia]. }
        rewrite lookup_insert_ne in Hm by done. right. split; [|done].
        rewrite not_elem_of_cons. split; [done | done].
    + intros [([|j] & Hj & ->) | [Hk Hm]].
      * injection Hj as <-. right. split; [done|].
        rewrite lookup_insert_eq. f_equal. lia.
      * left. exists j. split; [done | lia].
      * apply not_elem_of_cons in Hk as [Hne Hk]. right. split; [done|].
        by rewrite lookup_insert_ne.
Qed.

Lemma get_map_from_id2asin (df : list row) (idx : nat)
    (maps : gmap string nat * gmap nat string) (i : nat) (k : string) :
  (get_map_from idx df maps).2 !! i = Some k ↔
  (∃ j, (asin <$> df) !! j = Some k ∧ i = (idx + j)%nat) ∨
  ((i < idx ∨ idx + length df ≤ i)%nat ∧ maps.2 !! i = Some k).
Proof.
  revert idx maps. induction df as [|r df IH]; intros idx maps.
  - simpl. split; [intros; right; split; [lia | done]|].
    intros [(j & Hj & _) | [_ ?]]; [done | done].
  - cbn [get_map_from]. rewrite IH. cbn [snd length]. rewrite fmap_cons. split.
    + intros [(j & Hj & ->) | [Hi Hm]].
      * left. exists (S j). split; [done | lia].
      * destruct (decide (idx = i)) as [<-|Hne].
        { rewrite lookup_insert_eq in Hm. injection Hm as <-.
          left. exists 0%nat. split; [done | lia]. }
        rewrite lookup_insert_ne in Hm by done. right. split; [lia | done].
    + intros [([|j] & Hj & ->) | [Hi Hm]].
      * injection Hj as <-. right. split; [lia|].
        rewrite Nat.add_0_r. by rewrite lookup_insert_eq.
      * left. exists j. split; [done | lia].
      * right. split; [lia|]. rewrite lookup_insert_ne by lia. done.
Qed.

Lemma get_map_spec (df : list row) :
  NoDup (asin <$> df) →
  (∀ k i, (get_map df).1 !! k = Some i ↔ (asin <$> df) !! i = Some k) ∧
  (∀ i k, (get_map df).2 !! i = Some k ↔ (asin <$> df) !! i = Some k).
Proof.
  intros Hnd. unfold get_map. split.
  - intros k i. rewrite get_map_from_asin2id by done. simpl. split.
    + intros [(j & Hj & ->) | [_ ?]]; [done | done].
    + intros H. left. by exists i.
  - intros i k. rewrite get_map_from_id2asin. simpl. split.
    + intros [(j & Hj & ->) | [_ ?]]; [done | done].
    + intros H. left. by exists i.
Qed.

(** C7: linking keeps exactly the natural keys found in both the
    metadata and the review frame, whatever the Q&A frame holds; each key
    is kept once, with the first metadata row that has it, in the order of
    the metadata frame; the kept entities are at most as many as the rows
    of either frame; and the two maps number the kept keys densely from 0
    in that order, one being the inverse of the other.  The review and
    Q&A frames are cut down to the kept keys. *)
Theorem record_linking_intersection (df_qa df_review df_ucsd_meta : list row) :
  let l := link_records df_qa df_review df_ucsd_meta in
  let keys := asin <$> df_meta_reduced l in
  (∀ k, k ∈ keys ↔ k ∈ asin <$> df_ucsd_meta ∧ k ∈ asin <$> df_review) ∧
  NoDup keys ∧
  df_meta_reduced l =
    select_columns (meta_columns ++ link_columns)
      (filter (λ r, asin r ∈ asin <$> df_review) (drop_duplicates df_ucsd_meta)) ∧
  drop_duplicates df_ucsd_meta `sublist_of` df_ucsd_meta ∧
  (∀ r, r ∈ drop_duplicates df_ucsd_meta ↔
        ∃ i, df_ucsd_meta !! i = Some r ∧
             ∀ j r', (j < i)%nat → df_ucsd_meta !! j = Some r' → asin r' ≠ asin r) ∧
  (length keys ≤ length df_ucsd_meta `min` length df_review)%nat ∧
  (∀ k i, asin2id l !! k = Some i ↔ keys !! i = Some k) ∧
  (∀ i k, id2asin l !! i = Some k ↔ keys !! i = Some k) ∧
  df_review_reduced l = filter (λ r, asin r ∈ keys) df_review ∧
  df_qa_reduced l = filter (λ r, asin r ∈ keys) df_qa.
Proof.
  intros l keys.
  set (cols := meta_columns ++ link_columns).
  set (dd := drop_duplicates df_ucsd_meta).
  set (unique_asin := np_unique (asin <$> merge df_review (select_columns cols dd))).
  assert (∀ k, k ∈ unique_asin ↔ k ∈ asin <$> df_ucsd_meta ∧ k ∈ asin <$> df_review)
    as Hunique.
  { intros k. unfold unique_asin. rewrite np_unique_elem, merge_keys, select_columns_asin.
    unfold dd, drop_duplicates. rewrite drop_duplicates_from_keys.
    pose proof (not_elem_of_empty (C:=gset string) k). tauto. }
  assert (df_meta_reduced l =
          select_columns cols (filter (λ r, asin r ∈ asin <$> df_review) dd)) as Hmeta.
  { change (df_meta_reduced l) with (isin_asin unique_asin (select_columns cols dd)).
    rewrite select_columns_isin. f_equal. unfold isin_asin.
    apply filter_ext_in. intros r Hr. rewrite Hunique.
    assert (asin r ∈ asin <$> df_ucsd_meta); [|tauto].
    assert (asin r ∈ asin <$> dd) as Hin by (apply list_elem_of_fmap; eauto).
    unfold dd, drop_duplicates in Hin. by apply drop_duplicates_from_keys in Hin as [? _]. }
  assert (keys = filter (λ k, k ∈ asin <$> df_review) (asin <$> dd)) as Hkeys.
  { unfold keys. by rewrite Hmeta, select_columns_asin, filter_fmap. }
  assert (NoDup keys) as Hnd.
  { rewrite Hkeys. apply NoDup_filter, drop_duplicates_from_NoDup. }
  assert (∀ k, k ∈ keys ↔ k ∈ asin <$> df_ucsd_meta ∧ k ∈ asin <$> df_review) as Hin.
  { intros k. rewrite Hkeys, list_elem_of_filter. unfold dd, drop_duplicates.
    rewrite drop_duplicates_from_keys.
    pose proof (not_elem_of_empty (C:=gset string) k). tauto. }
  assert (∀ k, k ∈ unique_asin ↔ k ∈ keys) as Hsame
    by (intros k; by rewrite Hunique, Hin).
  destruct (get_map_spec (df_meta_reduced l) Hnd) as [H1 H2].
  split; [exact Hin|]. split; [exact Hnd|]. split; [exact Hmeta|].
  split; [apply drop_duplicates_from_sublist|].
  split.
  { intros r. unfold dd, drop_duplicates. rewrite drop_duplicates_from_first.
    pose proof (not_elem_of_empty (C:=gset string) (asin r)). tauto. }
  split.
  { apply Nat.min_glb.
    - rewrite Hkeys. etrans; [apply length_filter|]. rewrite length_fmap.
      apply sublist_length, drop_duplicates_from_sublist.
    - rewrite <- (length_fmap asin df_review).
      apply submseteq_length, NoDup_submseteq; [done|].
      intros k Hk. by apply Hin in Hk as [_ ?]. }
  split; [exact H1|]. split; [exact H2|].
  split; apply filter_ext_in; intros r _; apply Hsame.
Qed.

(** ** Augmentation *)

Lemma zip_replicate {A B : Type} (l : list A) (y : B) :
  zip l (replicate (length l) y) = (λ x, (x, y)) <$> l.
Proof. induction l as [|x l IH]; simpl; [done | by rewrite IH]. Qed.

Lemma add_meta_nodes_spec (link_type : string) (cur_n_nodes type_id : nat)
    (indices : list nat) (values : list string) (unique : list string)
    (j : nat) (d : processed_data) :
  parallel d → length (node_info d) = (cur_n_nodes + j)%nat →
  let d' := add_meta_nodes link_type cur_n_nodes type_id indices values j unique d in
  node_info d' =
    node_info d ++ ((λ u, {[ link_type +:+ "_name" := VStr u ]}) <$> unique) ∧
  edges d' = edges d ++ meta_edges cur_n_nodes type_id indices values j unique ∧
  parallel d' ∧
  edge_type_dict d' = edge_type_dict d ∧
  node_type_dict d' = node_type_dict d ∧
  node_types d' = node_types d.
Proof.
  revert j d. induction unique as [|u unique IH]; intros j d [Hp1 Hp2] Hlen.
  - simpl. by rewrite !app_nil_r.
  - cbn zeta. cbn [add_meta_nodes meta_edges].
    set (ids := select_ids u indices values).
    match goal with
    | |- context [add_meta_nodes _ _ _ _ _ _ _ ?x] => set (d1 := x)
    end.
    assert (node_info d1 = node_info d ++ [{[ link_type +:+ "_name" := VStr u ]}]) as Hni.
    { unfold d1. cbn [node_info]. unfold node_info_insert.
      destruct (Nat.ltb_spec (cur_n_nodes + j) (length (node_info d))); [lia | done]. }
    assert (edges d1 = edges d ++ ((λ idx, (idx, (cur_n_nodes + j)%nat, type_id)) <$> ids))
      as Hed.
    { unfold edges, d1. cbn [edge_index edge_types fst snd].
      rewrite zip_with_app by lia.
      rewrite zip_with_app by (rewrite length_zip_with; lia).
      f_equal. rewrite zip_replicate.
      rewrite <- (length_fmap (λ x, (x, (cur_n_nodes + j)%nat)) ids), zip_replicate.
      rewrite <- list_fmap_compose. done. }
    destruct (IH (S j) d1) as (H1 & H2 & H3 & H4 & H5 & H6).
    { unfold parallel, d1. cbn [edge_index edge_types fst snd].
      rewrite !length_app, !length_replicate. lia. }
    { rewrite Hni, length_app. simpl. lia. }
    rewrite H1, H2, Hni, Hed, <- !app_assoc. done.
Qed.

Lemma compare_lt_trans (x y z : string) :
  String.compare x y = Lt → String.compare y z = Lt → String.compare x z = Lt.
Proof.
  intros Hxy Hyz.
  assert (String.le x z) as Hle.
  { transitivity y; unfold String.le, String.leb; [by rewrite Hxy | by rewrite Hyz]. }
  unfold String.le, String.leb in Hle.
  destruct (String.compare x z) eqn:Hxz; [|done|done].
  apply String.compare_eq_iff in Hxz as ->.
  rewrite String.compare_antisym, Hxy in Hyz. done.
Qed.

Lemma compare_lt_irrefl (x : string) : String.compare x x ≠ Lt.
Proof.
  assert (String.compare x x = Eq) as ->; [|done].
  induction x as [|c x IH]; simpl; [done|].
  unfold Ascii.compare. by rewrite N.compare_refl.
Qed.

(** [np_unique] returns its values in strictly increasing order. *)
Lemma unique_insert_sorted (x : string) (l : list string) :
  StronglySorted (λ a b, String.compare a b = Lt) l →
  StronglySorted (λ a b, String.compare a b = Lt) (unique_insert x l).
Proof.
  induction 1 as [|y l Hs IH Hy]; simpl; [repeat constructor|].
  destruct (String.compare x y) eqn:Hc.
  - by constructor.
  - constructor; [by constructor|]. constructor; [done|].
    eapply Forall_impl; [exact Hy|]. intros z Hz. by eapply compare_lt_trans.
  - constructor; [done|].
    apply Forall_forall. intros z [->|Hz]%unique_insert_elem.
    + rewrite String.compare_antisym, Hc. done.
    + by apply (proj1 (Forall_forall _ _) Hy).
Qed.

Lemma np_unique_sorted (l : list string) :
  StronglySorted (λ a b, String.compare a b = Lt) (np_unique l).
Proof.
  unfold np_unique. induction l as [|x l IH]; simpl; [constructor|].
  by apply unique_insert_sorted.
Qed.

Lemma np_unique_NoDup (l : list string) : NoDup (np_unique l).
Proof.
  induction (np_unique_sorted l) as [|x k Hs IH Hx]; constructor; [|done].
  intros Hin. apply (proj1 (Forall_forall _ _) Hx) in Hin.
  by apply compare_lt_irrefl in Hin.
Qed.

Lemma link_values_ok (link_type : string) (l : list (gmap string value)) :
  (∀ node v, node ∈ l → node !! link_type = Some v → ∃ s, v = VStr s) →
  ∃ values, link_values link_type l = Ok values.
Proof.
  induction l as [|node l IH]; intros Hstr; simpl; [eauto|].
  destruct IH as [values Hv]; [intros n v Hn; apply Hstr; by right|].
  destruct (node !! link_type) as [v|] eqn:Hk; [|eauto].
  destruct (Hstr node v) as [s ->]; [left | done|]. simpl. rewrite Hv. simpl. eauto.
Qed.

Lemma link_indices_ge (link_type : string) (l : list (gmap string value)) (idx e : nat) :
  e ∈ link_indices link_type idx l → (idx ≤ e)%nat.
Proof.
  revert idx. induction l as [|node l IH]; intros idx; simpl; [by intros ?%elem_of_nil|].
  destruct (has_key link_type node).
  - intros [->|H]%elem_of_cons; [lia|]. apply IH in H. lia.
  - intros H. apply IH in H. lia.
Qed.

Lemma link_indices_NoDup (link_type : string) (l : list (gmap string value)) (idx : nat) :
  NoDup (link_indices link_type idx l).
Proof.
  revert idx. induction l as [|node l IH]; intros idx; simpl; [constructor|].
  destruct (has_key link_type node); [|apply IH].
  constructor; [|apply IH]. intros H%link_indices_ge. lia.
Qed.

Lemma link_zip (link_type : string) (l : list (gmap string value)) (idx : nat)
    (values : list string) :
  link_values link_type l = Ok values →
  length (link_indices link_type idx l) = length values ∧
  ∀ i node s, l !! i = Some node → node !! link_type = Some (VStr s) →
    ((idx + i)%nat, np_str (_process_brand s)) ∈ zip (link_indices link_type idx l) values.
Proof.
  revert idx values. induction l as [|node l IH]; intros idx values; simpl.
  - intros [= <-]. split; [done|]. by intros i node s.
  - unfold has_key. destruct (node !! link_type) as [v|] eqn:Hk.
    + destruct (_process_brand_value v) as [x|] eqn:Hx; [|done]. simpl.
      destruct (link_values link_type l) as [xs|] eqn:Hxs; [|done]. simpl.
      intros [= <-]. destruct (IH (S idx) xs eq_refl) as [Hlen Hin].
      split; [simpl; by rewrite Hlen|].
      intros [|i] n s Hn Hs; simpl in Hn.
      * injection Hn as <-. rewrite Hk in Hs. injection Hs as ->.
        simpl in Hx. injection Hx as <-. rewrite Nat.add_0_r. left.
      * right. replace (idx + S i)%nat with (S idx + i)%nat by lia. by eapply Hin.
    + intros Hv. destruct (IH (S idx) values Hv) as [Hlen Hin].
      split; [done|].
      intros [|i] n s Hn Hs; simpl in Hn.
      * injection Hn as <-. congruence.
      * replace (idx + S i)%nat with (S idx + i)%nat by lia. by eapply Hin.
Qed.

Lemma add_meta_link_spec (n_e_types n_n_types i : nat) (link_type : string)
    (d : processed_data) :
  parallel d →
  (∀ node v, node ∈ node_info d → node !! link_type = Some v → ∃ s, v = VStr s) →
  ∃ values out,
    link_values link_type (node_info d) = Ok values ∧
    add_meta_link n_e_types n_n_types i link_type d = Ok out ∧
    node_info out =
      node_info d ++ ((λ u, {[ link_type +:+ "_name" := VStr u ]}) <$> np_unique values) ∧
    edges out =
      edges d ++ meta_edges (length (node_info d)) (i + n_e_types)
                   (link_indices link_type 0 (node_info d)) values 0 (np_unique values) ∧
    parallel out ∧
    edge_type_dict out = <[(n_e_types + i)%nat := "has_" +:+ link_type]> (edge_type_dict d) ∧
    node_type_dict out = <[(n_n_types + i)%nat := link_type]> (node_type_dict d) ∧
    node_types out = node_types d ++ replicate (length (np_unique values)) (n_n_types + i)%nat.
Proof.
  intros Hpar Hstr. destruct (link_values_ok link_type (node_info d) Hstr) as [values Hv].
  unfold add_meta_link. rewrite Hv. cbn [result_bind].
  match goal with
  | |- context [add_meta_nodes _ _ _ _ _ _ _ ?x] => set (d1 := x)
  end.
  destruct (add_meta_nodes_spec link_type (length (node_info d)) (i + n_e_types)
              (link_indices link_type 0 (node_info d)) values (np_unique values) 0 d1)
    as (H1 & H2 & H3 & H4 & H5 & H6); [done | simpl; lia |].
  eexists values, _. split; [done|]. split; [done|]. cbn [node_info edge_type_dict
    node_type_dict node_types].
  rewrite H1, H4, H5, H6. repeat split; try done.
  - apply H3.
  - apply H3.
Qed.

Lemma select_ids_elem (u : string) (indices : list nat) (values : list string) (e : nat) :
  e ∈ select_ids u indices values ↔ (e, u) ∈ zip indices values.
Proof.
  revert values. induction indices as [|i indices IH]; intros [|v values]; simpl;
    try (by rewrite !elem_of_nil).
  destruct (String.eqb_spec v u) as [->|Hne]; rewrite ?elem_of_cons, IH.
  - split; [intros [->|?]; auto | intros [[= ->]|?]; auto].
  - split; [auto | intros [[= -> ->]|?]; [done | auto]].
Qed.

Lemma select_ids_sublist (u : string) (indices : list nat) (values : list string) :
  select_ids u indices values `sublist_of` indices.
Proof.
  revert values. induction indices as [|i indices IH]; intros [|v values]; simpl;
    try done; [apply sublist_nil_l|].
  destruct (String.eqb v u); [by apply sublist_skip | by apply sublist_cons].
Qed.

Lemma zip_fst_elem {A B : Type} (l : list A) (k : list B) (x : A) (y : B) :
  (x, y) ∈ zip l k → x ∈ l.
Proof.
  revert k. induction l as [|a l IH]; intros [|b k]; simpl; try (by intros ?%elem_of_nil).
  intros [[= -> ->]|H]%elem_of_cons; [left | right; eauto].
Qed.

Lemma zip_NoDup_fst {A B : Type} (l : list A) (k : list B) (x : A) (y y' : B) :
  NoDup l → (x, y) ∈ zip l k → (x, y') ∈ zip l k → y = y'.
Proof.
  revert k. induction l as [|a l IH]; intros [|b k] Hnd; simpl;
    try (by intros ?%elem_of_nil).
  apply NoDup_cons in Hnd as [Ha Hnd].
  intros [[= -> ->]|H1]%elem_of_cons [[= <-]|H2]%elem_of_cons; try done.
  - by apply zip_fst_elem in H2.
  - subst. by apply zip_fst_elem in H1.
  - eauto.
Qed.

Lemma filter_eq_NoDup (e : nat) (l : list nat) :
  NoDup l → filter (λ x, x = e) l = if decide (e ∈ l) then [e] else [].
Proof.
  induction 1 as [|x l Hx Hnd IH]; [done|].
  rewrite filter_cons, IH.
  destruct (decide (x = e)) as [->|Hne].
  - rewrite (decide_False (P := e ∈ l)) by done.
    by rewrite (decide_True (P := e ∈ e :: l)) by left.
  - destruct (decide (e ∈ l)).
    + by rewrite (decide_True (P := e ∈ x :: l)) by (by right).
    + rewrite (decide_False (P := e ∈ x :: l)); [done|].
      rewrite not_elem_of_cons. split; auto.
Qed.

(** Among the edges added for one kind, the ones leaving [e]: exactly
    one, to the synthetic node of the value of [e]. *)
Lemma meta_edges_src (cur_n_nodes type_id : nat) (indices : list nat)
    (values : list string) (e : nat) (v : string) (unique : list string) (j : nat) :
  NoDup indices → (e, v) ∈ zip indices values → NoDup unique →
  (v ∉ unique →
   filter (λ x, x.1.1 = e) (meta_edges cur_n_nodes type_id indices values j unique) = []) ∧
  (∀ pos, unique !! pos = Some v →
   filter (λ x, x.1.1 = e) (meta_edges cur_n_nodes type_id indices values j unique) =
     [(e, (cur_n_nodes + (j + pos))%nat, type_id)]).
Proof.
  intros Hnd He. revert j. induction unique as [|u unique IH]; intros j Hu.
  - split; [done|]. by intros pos.
  - apply NoDup_cons in Hu as [Hu Hnu]. destruct (IH (S j) Hnu) as [IH1 IH2].
    assert (filter (λ x : nat * nat * nat, x.1.1 = e)
              ((λ idx, (idx, (cur_n_nodes + j)%nat, type_id))
                 <$> select_ids u indices values) =
            if decide (u = v) then [(e, (cur_n_nodes + j)%nat, type_id)] else []) as Hhead.
    { rewrite filter_fmap. cbn [fst].
      rewrite filter_eq_NoDup by (eapply sublist_NoDup; [done | apply select_ids_sublist]).
      destruct (decide (u = v)) as [->|Hne].
      - rewrite decide_True by (by apply select_ids_elem). done.
      - rewrite decide_False; [done|]. rewrite select_ids_elem. intros He'.
        by pose proof (zip_NoDup_fst _ _ _ _ _ Hnd He He'). }
    cbn [meta_edges]. rewrite filter_app, Hhead. split.
    + intros [Hne Hv]%not_elem_of_cons. rewrite decide_False by done. by rewrite IH1.
    + intros [|pos] Hpos; simpl in Hpos.
      * injection Hpos as ->. rewrite decide_True by done. rewrite IH1 by done.
        by rewrite Nat.add_0_r.
      * assert (u ≠ v) by (intros ->; apply Hu; by eapply list_elem_of_lookup_2).
        rewrite decide_False by done. rewrite (IH2 pos Hpos). simpl.
        by replace (cur_n_nodes + (j + S pos))%nat with (cur_n_nodes + S (j + pos))%nat by lia.
Qed.

Lemma meta_edges_type (cur_n_nodes type_id : nat) (indices : list nat)
    (values : list string) (unique : list string) (j : nat) (x : nat * nat * nat) :
  x ∈ meta_edges cur_n_nodes type_id indices values j unique →
  x.2 = type_id ∧ x.1.1 ∈ indices ∧
  (cur_n_nodes + j ≤ x.1.2 < cur_n_nodes + j + length unique)%nat.
Proof.
  revert j. induction unique as [|u unique IH]; intros j; simpl; [by intros ?%elem_of_nil|].
  intros [(idx & -> & Hidx)%list_elem_of_fmap | H]%elem_of_app.
  - simpl. split; [done|]. split; [|lia].
    apply select_ids_elem in Hidx. by apply zip_fst_elem in Hidx.
  - apply IH in H as (? & ? & ?). split; [done|]. split; [done | lia].
Qed.

Lemma zip_snd_elem {A B : Type} (l : list A) (k : list B) (x : A) (y : B) :
  (x, y) ∈ zip l k → y ∈ k.
Proof.
  revert k. induction l as [|a l IH]; intros [|b k]; simpl; try (by intros ?%elem_of_nil).
  intros [[= -> ->]|H]%elem_of_cons; [left | right; eauto].
Qed.

Lemma filter_none {A : Type} (P : A → Prop) `{∀ x, Decision (P x)} (l : list A) :
  (∀ x, x ∈ l → ¬ P x) → filter P l = [].
Proof.
  induction l as [|x l IH]; intros Hno; [done|].
  rewrite filter_cons_False by (apply Hno; left). apply IH. intros y Hy. apply Hno. by right.
Qed.

Lemma np_str_keeps (s : string) :
  last_char s ≠ Some "000"%char → np_str s = s.
Proof.
  intros H. apply rstrip_outside. unfold outside.
  destruct (last_char s) as [c|]; [|done].
  rewrite mem_elem_of. apply negb_true_iff, bool_decide_eq_false.
  intros ->%list_elem_of_singleton. done.
Qed.

(** C3, as the code has it: on a base graph whose edge arrays are
    parallel, whose edge type ids are those of its dictionary, none of
    them labelled "has_brand", and whose [brand] attributes are strings,
    augmentation with the kinds [["brand"]] succeeds, and every original
    entity with a [brand] attribute [b] has exactly one outgoing edge of
    type "has_brand".  Its destination has the record
    [{"brand_name": v}], where [v] is [_process_brand(b)] as the NumPy
    array of the values holds it, without the NUL characters at its end:
    [v] is [_process_brand(b)] itself whenever that does not end in a NUL
    character. *)
Theorem brand_meta_links (raw_info : processed_data) :
  parallel raw_info →
  Forall (λ t, (t < size (edge_type_dict raw_info))%nat) (edge_types raw_info) →
  (∀ t, edge_type_dict raw_info !! t ≠ Some "has_brand") →
  (∀ node v, node ∈ node_info raw_info → node !! "brand" = Some v → ∃ s, v = VStr s) →
  ∃ out,
    post_process raw_info ["brand"] = Ok out ∧
    ∀ e node b,
      node_info raw_info !! e = Some node → node !! "brand" = Some (VStr b) →
      ∃ dst,
        out_edges out e "has_brand" = [dst] ∧
        node_info out !! dst =
          Some {[ "brand_name" := VStr (np_str (_process_brand b)) ]} ∧
        (last_char (_process_brand b) ≠ Some "000"%char →
         node_info out !! dst = Some {[ "brand_name" := VStr (_process_brand b) ]}).
Proof.
  intros Hpar Htypes Hlabel Hstr.
  set (n_e := size (edge_type_dict raw_info)) in *.
  destruct (add_meta_link_spec n_e (size (node_type_dict raw_info)) 0 "brand"
              raw_info Hpar Hstr)
    as (values & out & Hv & Hout & Hni & Hed & _ & Hetd & _ & _).
  exists out. split.
  { unfold post_process. cbn [post_process_loop]. fold n_e. by rewrite Hout. }
  intros e node b He Hb.
  destruct (link_zip "brand" (node_info raw_info) 0 values Hv) as [Hlen Hin].
  specialize (Hin e node b He Hb). simpl in Hin.
  assert (np_str (_process_brand b) ∈ np_unique values) as [pos Hpos]%list_elem_of_lookup_1.
  { apply np_unique_elem. by eapply zip_snd_elem. }
  assert (node_info out !! (length (node_info raw_info) + pos)%nat =
          Some {[ "brand_name" := VStr (np_str (_process_brand b)) ]}) as Hdst.
  { rewrite Hni, lookup_app_r by lia.
    replace (length (node_info raw_info) + pos - length (node_info raw_info))%nat
      with pos by lia.
    by rewrite list_lookup_fmap, Hpos. }
  exists (length (node_info raw_info) + pos)%nat. split; [|split; [exact Hdst|]]; cycle 1.
  { intros Hnul. by rewrite Hdst, (np_str_keeps _ Hnul). }
  { unfold out_edges. rewrite Hed, filter_app.
    rewrite (filter_none _ (edges raw_info)); cycle 1.
    { intros [[s dst] t] Hx [_ Hl]. simpl in Hl.
      apply zip_snd_elem in Hx.
      apply (proj1 (Forall_forall _ _) Htypes) in Hx.
      rewrite Hetd, lookup_insert_ne in Hl by lia. by apply (Hlabel t). }
    rewrite app_nil_l.
    rewrite (filter_ext_in _ (λ x : nat * nat * nat, x.1.1 = e)); cycle 1.
    { intros x [Ht _]%meta_edges_type. rewrite Ht, Hetd.
      replace (0 + n_e)%nat with (n_e + 0)%nat by lia.
      rewrite lookup_insert_eq. tauto. }
    destruct (meta_edges_src (length (node_info raw_info)) (0 + n_e)
                (link_indices "brand" 0 (node_info raw_info)) values e
                (np_str (_process_brand b)) (np_unique values) 0) as [_ Hone];
      [apply link_indices_NoDup | done | apply np_unique_NoDup |].
    by rewrite (Hone pos Hpos). }
Qed.

Lemma sample_graph_strings (link_type : string) (node : gmap string value) (v : value) :
  node ∈ node_info sample_graph → node !! link_type = Some v → ∃ s, v = VStr s.
Proof.
  intros Hin Hv. apply (map_Forall_lookup_1 (λ _ v, ∃ s, v = VStr s) node link_type v);
    [|done].
  clear Hv. revert node Hin. apply Forall_forall.
  repeat (apply Forall_cons_2 || apply Forall_nil_2);
    repeat (apply map_Forall_insert_2 || apply map_Forall_empty); eauto.
Qed.

Lemma brand_meta_links_witness :
  parallel sample_graph ∧
  ∃ out,
    post_process sample_graph ["brand"] = Ok out ∧
    ∀ e node b,
      node_info sample_graph !! e = Some node → node !! "brand" = Some (VStr b) →
      ∃ dst,
        out_edges out e "has_brand" = [dst] ∧
        node_info out !! dst =
          Some {[ "brand_name" := VStr (np_str (_process_brand b)) ]} ∧
        (last_char (_process_brand b) ≠ Some "000"%char →
         node_info out !! dst = Some {[ "brand_name" := VStr (_process_brand b) ]}).
Proof.
  assert (parallel sample_graph) as Hpar by (split; reflexivity).
  split; [exact Hpar|].
  apply (brand_meta_links sample_graph Hpar).
  - decide_vm.
  - assert (map_Forall (λ (_ : nat) (v : string), v ≠ "has_brand")
              (edge_type_dict sample_graph)) as HF by decide_vm.
    intros t Ht. by apply (HF t _ Ht).
  - apply sample_graph_strings.
Defined.

(** C3, the claim as stated fails: the brand ["Acme"] followed by a NUL
    character is its own normalised value, and the entity's one
    "has_brand" edge leads to a node named ["Acme"], without the NUL. *)
Lemma brand_name_truncated :
  _process_brand nul_brand = nul_brand ∧
  ∃ out,
    post_process nul_graph ["brand"] = Ok out ∧
    out_edges out 0 "has_brand" = [1%nat] ∧
    node_info out !! 1%nat = Some {[ "brand_name" := VStr "Acme" ]} ∧
    node_info out !! 1%nat ≠ Some {[ "brand_name" := VStr (_process_brand nul_brand) ]}.
Proof.
  split; [by vm_compute|]. eexists. split; [by vm_compute|].
  split; [by vm_compute|]. split; [by vm_compute|].
  vm_compute. intros [=].
Qed.

Lemma link_indices_lt (link_type : string) (l : list (gmap string value)) (idx e : nat) :
  e ∈ link_indices link_type idx l → (e < idx + length l)%nat.
Proof.
  revert idx. induction l as [|node l IH]; intros idx; simpl; [by intros ?%elem_of_nil|].
  destruct (has_key link_type node).
  - intros [->|H]%elem_of_cons; [lia|]. apply IH in H. lia.
  - intros H. apply IH in H. lia.
Qed.

(** What the outer loop does from position [i] on: it appends synthetic
    nodes with their types and edges, and writes one entry per kind in
    each dictionary, at the keys that follow [n_n_types + i] and
    [n_e_types + i]. *)
Lemma post_process_loop_spec (n_e_types n_n_types : nat) (kinds : list string)
    (i : nat) (d : processed_data) :
  parallel d →
  (∀ kind node v, kind ∈ kinds → node ∈ node_info d → node !! kind = Some v →
                  ∃ s, v = VStr s) →
  ∃ out synth types new,
    post_process_loop n_e_types n_n_types i kinds d = Ok out ∧
    node_info out = node_info d ++ synth ∧
    node_types out = node_types d ++ types ∧
    Forall2 (λ node t, ∃ p kind v, kinds !! p = Some kind ∧
                                   t = (n_n_types + (i + p))%nat ∧
                                   node = {[ kind +:+ "_name" := VStr v ]})
            synth types ∧
    edges out = edges d ++ new ∧
    Forall (λ x : nat * nat * nat,
              (x.1.1 < length (node_info out))%nat ∧
              (length (node_info d) ≤ x.1.2 < length (node_info out))%nat ∧
              ∃ p, (p < length kinds)%nat ∧ x.2 = (n_e_types + (i + p))%nat) new ∧
    (∀ t, node_type_dict out !! t =
          if decide (n_n_types + i ≤ t < n_n_types + i + length kinds)%nat
          then kinds !! (t - (n_n_types + i))%nat else node_type_dict d !! t) ∧
    (∀ t, edge_type_dict out !! t =
          if decide (n_e_types + i ≤ t < n_e_types + i + length kinds)%nat
          then (λ kind, "has_" +:+ kind) <$> kinds !! (t - (n_e_types + i))%nat
          else edge_type_dict d !! t).
Proof.
  revert i d. induction kinds as [|kind rest IH]; intros i d Hpar Hstr.
  - exists d, [], [], []. cbn [post_process_loop length].
    rewrite !app_nil_r. repeat (split; [done|]).
    split; intros t; by rewrite decide_False by lia.
  - destruct (add_meta_link_spec n_e_types n_n_types i kind d Hpar)
      as (values & d1 & Hv & Hd1 & Hni & Hed & Hpar1 & Hetd & Hntd & Hnt).
    { intros node v. apply Hstr. left. }
    destruct (IH (S i) d1 Hpar1)
      as (out & synth & types & new & Hout & Hni' & Hnt' & Hsyn & Hed' & Hnew & Hnd & Hed2).
    { intros k node v Hk Hnode Hlook. rewrite Hni in Hnode.
      apply elem_of_app in Hnode as [Hnode | (u & -> & _)%list_elem_of_fmap].
      - eapply Hstr; [by right | done | done].
      - apply lookup_singleton_Some in Hlook as [_ <-]. eauto. }
    set (unique := np_unique values) in *.
    set (mk := λ u : string, ({[ kind +:+ "_name" := VStr u ]} : gmap string value)) in *.
    exists out, ((mk <$> unique) ++ synth),
      (replicate (length unique) (n_n_types + i)%nat ++ types),
      (meta_edges (length (node_info d)) (i + n_e_types)
         (link_indices kind 0 (node_info d)) values 0 unique ++ new).
    assert (length (node_info out) =
            (length (node_info d) + length unique + length synth)%nat) as Hlen.
    { rewrite Hni', Hni, !length_app, length_fmap. done. }
    split; [cbn [post_process_loop]; by rewrite Hd1|].
    split; [by rewrite Hni', Hni, app_assoc|].
    split; [by rewrite Hnt', Hnt, app_assoc|].
    split.
    { apply Forall2_app.
      - clear. induction unique as [|u unique IHu]; simpl; constructor; [|done].
        exists 0%nat, kind, u. split; [done|]. split; [f_equal; lia | done].
      - eapply Forall2_impl; [exact Hsyn|].
        intros node t (p & k & v & Hp & -> & ->).
        exists (S p), k, v. split; [done|]. split; [lia | done]. }
    split; [by rewrite Hed', Hed, app_assoc|].
    split.
    { apply Forall_app. split.
      - apply Forall_forall. intros x (Ht & Hsrc%link_indices_lt & Hdst)%meta_edges_type.
        split; [lia|]. split; [lia|]. exists 0%nat. simpl. split; lia.
      - eapply Forall_impl; [exact Hnew|].
        intros x (Hsrc & Hdst & p & Hp & Ht).
        rewrite Hni, length_app, length_fmap in Hdst.
        split; [done|]. split; [lia|]. exists (S p). simpl. split; lia. }
    split.
    + intros t. rewrite Hnd, Hntd. cbn [length].
      destruct (decide (n_n_types + S i ≤ t < n_n_types + S i + length rest)%nat).
      * rewrite decide_True by lia.
        replace (t - (n_n_types + i))%nat with (S (t - (n_n_types + S i))) by lia. done.
      * destruct (decide (t = (n_n_types + i)%nat)) as [->|Hne].
        { rewrite lookup_insert_eq, decide_True by lia.
          by replace (n_n_types + i - (n_n_types + i))%nat with 0%nat by lia. }
        rewrite lookup_insert_ne by done. by rewrite decide_False by lia.
    + intros t. rewrite Hed2, Hetd. cbn [length].
      destruct (decide (n_e_types + S i ≤ t < n_e_types + S i + length rest)%nat).
      * rewrite decide_True by lia.
        replace (t - (n_e_types + i))%nat with (S (t - (n_e_types + S i))) by lia. done.
      * destruct (decide (t = (n_e_types + i)%nat)) as [->|Hne].
        { rewrite lookup_insert_eq, decide_True by lia.
          by replace (n_e_types + i - (n_e_types + i))%nat with 0%nat by lia. }
        rewrite lookup_insert_ne by done. by rewrite decide_False by lia.
Qed.

(** C8: on a base graph whose two type dictionaries have the keys
    [0 .. n-1], whose arrays are parallel and whose attributes of the
    requested kinds are strings, augmentation succeeds; the kind at
    position [i] gets the node-type id [n_n + i], labelled with the kind,
    and the edge-type id [n_e + i], labelled ["has_" + kind], where [n_n]
    and [n_e] are the sizes of the base dictionaries; the base entries are
    kept, so both dictionaries have exactly the keys from 0 up to their
    new size; the base node records and edges come first and unchanged,
    and every id after them is a synthetic node of one of the kinds, with
    that kind's node type, which the new edges point to. *)
Theorem meta_type_ids_extend (raw_info : processed_data) (meta_link_types : list string) :
  let n_e := size (edge_type_dict raw_info) in
  let n_n := size (node_type_dict raw_info) in
  parallel raw_info →
  (∀ t, is_Some (edge_type_dict raw_info !! t) ↔ (t < n_e)%nat) →
  (∀ t, is_Some (node_type_dict raw_info !! t) ↔ (t < n_n)%nat) →
  length (node_types raw_info) = length (node_info raw_info) →
  (∀ kind node v, kind ∈ meta_link_types → node ∈ node_info raw_info →
                  node !! kind = Some v → ∃ s, v = VStr s) →
  ∃ out,
    post_process raw_info meta_link_types = Ok out ∧
    (∀ i kind, meta_link_types !! i = Some kind →
       node_type_dict out !! (n_n + i)%nat = Some kind ∧
       edge_type_dict out !! (n_e + i)%nat = Some ("has_" +:+ kind)) ∧
    (∀ t, (t < n_n)%nat → node_type_dict out !! t = node_type_dict raw_info !! t) ∧
    (∀ t, (t < n_e)%nat → edge_type_dict out !! t = edge_type_dict raw_info !! t) ∧
    (∀ t, is_Some (node_type_dict out !! t) ↔ (t < n_n + length meta_link_types)%nat) ∧
    (∀ t, is_Some (edge_type_dict out !! t) ↔ (t < n_e + length meta_link_types)%nat) ∧
    node_info raw_info `prefix_of` node_info out ∧
    length (node_types out) = length (node_info out) ∧
    (∀ id, (length (node_info raw_info) ≤ id < length (node_info out))%nat →
       ∃ i kind v, meta_link_types !! i = Some kind ∧
         node_types out !! id = Some (n_n + i)%nat ∧
         node_info out !! id = Some {[ kind +:+ "_name" := VStr v ]}) ∧
    edges raw_info `prefix_of` edges out ∧
    (∀ k x, (length (edges raw_info) ≤ k)%nat → edges out !! k = Some x →
       (x.1.1 < length (node_info out))%nat ∧
       (length (node_info raw_info) ≤ x.1.2 < length (node_info out))%nat ∧
       (n_e ≤ x.2 < n_e + length meta_link_types)%nat).
Proof.
  intros n_e n_n Hpar Hedict Hndict Hlen Hstr.
  destruct (post_process_loop_spec n_e n_n meta_link_types 0 raw_info Hpar Hstr)
    as (out & synth & types & new & Hout & Hni & Hnt & Hsyn & Hed & Hnew & Hnd & Hetd).
  exists out. split; [done|].
  split.
  { intros i kind Hi. pose proof (lookup_lt_Some _ _ _ Hi).
    rewrite Hnd, Hetd, !decide_True by lia.
    replace (n_n + i - (n_n + 0))%nat with i by lia.
    replace (n_e + i - (n_e + 0))%nat with i by lia.
    by rewrite Hi. }
  split; [intros t Ht; by rewrite Hnd, decide_False by lia|].
  split; [intros t Ht; by rewrite Hetd, decide_False by lia|].
  split.
  { intros t. rewrite Hnd.
    destruct (decide (n_n + 0 ≤ t < n_n + 0 + length meta_link_types)%nat) as [Hin|Hout'].
    - split; [lia|]. intros _. apply lookup_lt_is_Some. lia.
    - rewrite Hndict. lia. }
  split.
  { intros t. rewrite Hetd.
    destruct (decide (n_e + 0 ≤ t < n_e + 0 + length meta_link_types)%nat) as [Hin|Hout'].
    - split; [lia|]. intros _. apply fmap_is_Some, lookup_lt_is_Some. lia.
    - rewrite Hedict. lia. }
  split; [by exists synth|].
  pose proof (Forall2_length _ _ _ Hsyn) as Hlens.
  split; [rewrite Hnt, Hni, !length_app; lia|].
  split.
  { intros id Hid. rewrite Hni, length_app in Hid.
    destruct (lookup_lt_is_Some_2 synth (id - length (node_info raw_info))) as [node Hnode];
      [lia|].
    destruct (Forall2_lookup_l _ _ _ _ _ Hsyn Hnode) as (t & Ht & p & kind & v & Hp & -> & ->).
    exists p, kind, v. split; [done|].
    rewrite Hnt, Hni, !lookup_app_r by lia. rewrite Hlen. split; [|done].
    rewrite Ht. f_equal. }
  split; [by exists new|].
  intros k x Hk Hx. rewrite Hed, lookup_app_r in Hx by done.
  apply list_elem_of_lookup_2 in Hx.
  apply (proj1 (Forall_forall _ _) Hnew) in Hx as (Hsrc & Hdst & p & Hp & Ht).
  split; [done|]. split; [done | lia].
Qed.

Lemma meta_type_ids_extend_witness :
  ∃ out,
    post_process sample_graph ["brand"; "title"] = Ok out ∧
    node_type_dict out !! 1%nat = Some "brand" ∧
    node_type_dict out !! 2%nat = Some "title" ∧
    edge_type_dict out !! 2%nat = Some "has_brand" ∧
    edge_type_dict out !! 3%nat = Some "has_title".
Proof.
  destruct (meta_type_ids_extend sample_graph ["brand"; "title"])
    as (out & Hout & Hids & _).
  - split; reflexivity.
  - intros t. rewrite <- elem_of_dom.
    assert (dom (edge_type_dict sample_graph) = ({[ 0%nat; 1%nat ]} : gset nat)) as ->
      by (by vm_compute).
    rewrite elem_of_union, !elem_of_singleton.
    change (size (edge_type_dict sample_graph)) with 2%nat. lia.
  - intros t. rewrite <- elem_of_dom.
    assert (dom (node_type_dict sample_graph) = ({[ 0%nat ]} : gset nat)) as ->
      by (by vm_compute).
    rewrite elem_of_singleton.
    change (size (node_type_dict sample_graph)) with 1%nat. lia.
  - reflexivity.
  - intros kind node v _. apply sample_graph_strings.
  - exists out. split; [exact Hout|].
    destruct (Hids 0%nat "brand" eq_refl) as [H1 H2].
    destruct (Hids 1%nat "title" eq_refl) as [H3 H4].
    repeat split; assumption.
Defined.

(** * Further properties of the code *)

(** ** What the normalisation returns *)

Lemma drop_while_suffix (P : ascii → bool) (l : list ascii) :
  ∃ p, l = p ++ drop_while P l.
Proof.
  induction l as [|c l [p IH]]; simpl; [by exists []|].
  destruct (P c); [|by exists []]. exists (c :: p). simpl. by rewrite <- IH.
Qed.

Lemma take_until_prefix (P : ascii → bool) (l : list ascii) :
  ∃ q, l = take_until P l ++ q.
Proof.
  induction l as [|c l [q IH]]; simpl; [by exists []|].
  destruct (P c); [by eexists|]. exists q. simpl. by rewrite <- IH.
Qed.

Lemma take_until_none (P : ascii → bool) (l : list ascii) (c : ascii) :
  c ∈ take_until P l → P c = false.
Proof.
  induction l as [|d l IH]; simpl; [by intros ?%elem_of_nil|].
  destruct (P d) eqn:Hd; [by intros ?%elem_of_nil|].
  intros [->|H]%elem_of_cons; [done | by apply IH].
Qed.

Lemma trim_infix (P : ascii → bool) (l : list ascii) :
  ∃ p q, l = p ++ trim P l ++ q.
Proof.
  unfold trim. destruct (drop_while_suffix P l) as [p Hp].
  destruct (drop_while_suffix P (reverse (drop_while P l))) as [q Hq].
  exists p, (reverse q). rewrite <- reverse_app, <- Hq, reverse_involutive. exact Hp.
Qed.

Lemma infix_step (l1 l2 l3 : list ascii) :
  (∃ p q, l1 = p ++ l2 ++ q) → (∃ p q, l2 = p ++ l3 ++ q) →
  ∃ p q, l1 = p ++ l3 ++ q.
Proof.
  intros (p & q & ->) (p' & q' & ->). exists (p ++ p'), (q' ++ q).
  by rewrite <- !app_assoc.
Qed.

Lemma contains_space_chars (s : string) :
  Py.contains " " s = false ↔ " "%char ∉ chars s.
Proof.
  induction s as [|c s IH].
  - split; [intros _ ?%elem_of_nil; done | done].
  - rewrite contains_space_cons, orb_false_iff, IH. simpl. rewrite not_elem_of_cons.
    destruct (Ascii.eqb_spec c " ") as [->|Hne]; split; intros [? ?]; try done.
Qed.

(** X1: [_process_brand] only cuts: what it returns is a run of consecutive
    characters of its argument, hence never longer, and a result of more
    than 100 characters has no space in it. *)
Theorem process_brand_cuts (s : string) :
  substring_of (_process_brand s) s ∧
  (Py.len (_process_brand s) ≤ Py.len s)%nat ∧
  ((Py.len (_process_brand s) ≤ 100)%nat ∨ Py.contains " " (_process_brand s) = false).
Proof.
  assert (∃ p q, chars s = p ++ chars (_process_brand s) ++ q) as (p & q & Hpq).
  { rewrite process_brand_chars. unfold normalize_brand. cbv zeta.
    rewrite list_ascii_of_string_of_list_ascii.
    set (l1 := trim _ (chars s)).
    set (l2 := if bool_decide (chars "by " `prefix_of` l1 ∧ _) then drop 3 l1 else l1).
    set (l3 := if bool_decide (chars ".com" `suffix_of` l2 ∧ _)
               then take (length l2 - 4) l2 else l2).
    set (l4 := if bool_decide (chars "www." `prefix_of` l3 ∧ _) then drop 4 l3 else l3).
    apply (infix_step _ l1); [apply trim_infix|].
    apply (infix_step _ l2).
    { unfold l2. case_bool_decide; [|by exists [], []; rewrite app_nil_r].
      exists (take 3 l1), []. by rewrite app_nil_r, take_drop. }
    apply (infix_step _ l3).
    { unfold l3. case_bool_decide; [|by exists [], []; rewrite app_nil_r].
      exists [], (drop (length l2 - 4) l2). by rewrite take_drop. }
    apply (infix_step _ l4).
    { unfold l4. case_bool_decide; [|by exists [], []; rewrite app_nil_r].
      exists (take 4 l3), []. by rewrite app_nil_r, take_drop. }
    case_bool_decide; [|by exists [], []; rewrite app_nil_r].
    destruct (take_until_prefix (λ c, bool_decide (c = " "%char)) l4) as [q Hq].
    by exists [], q. }
  split; [|split].
  - exists (of_chars p), (of_chars q). apply chars_inj.
    by rewrite !chars_app, !list_ascii_of_string_of_list_ascii.
  - rewrite !len_chars, Hpq, !length_app. lia.
  - rewrite contains_space_chars, len_chars, process_brand_chars.
    unfold normalize_brand. cbv zeta. rewrite list_ascii_of_string_of_list_ascii.
    case_bool_decide as Hlong; [right | left; lia].
    intros Hin%take_until_none. by apply bool_decide_eq_false in Hin.
Qed.

(** ** Node ids out of range *)

Lemma node_info_get_out (ni : list (gmap string value)) (idx : Z) :
  idx < 0 ∨ Z.of_nat (length ni) ≤ idx → node_info_get ni idx = Raise KeyError.
Proof.
  intros H. unfold node_info_get. destruct (Z.ltb_spec idx 0); [done|].
  rewrite lookup_ge_None_2; [done | lia].
Qed.

(** X2: an id that is not a node.  [get_doc_info] first indexes the
    tensor of node types, where a negative id counts from the end, and
    then the dictionary of node records, where it does not.  So an id
    outside [-n .. n-1] raises [IndexError], a negative id within it
    raises [KeyError], and [get_chunk_info], which only reads the
    dictionary, raises [KeyError] for every id that is not a key.  The
    knowledge base is left as it was. *)
Theorem node_id_out_of_range (py_repr : value → string) (compact_text : string → string)
    (argsort_neg : list Z → list nat)
    (self : KB) (idx : Z) (add_rel compact : bool) (attribute : string) :
  let n := Z.of_nat (length (node_types (data self))) in
  (idx < - n ∨ n ≤ idx →
   get_doc_info py_repr compact_text argsort_neg idx add_rel compact self =
     (Raise IndexError, self)) ∧
  (- n ≤ idx < 0 →
   get_doc_info py_repr compact_text argsort_neg idx add_rel compact self =
     (Raise KeyError, self)) ∧
  (idx < 0 ∨ Z.of_nat (length (node_info (data self))) ≤ idx →
   get_chunk_info py_repr argsort_neg idx attribute self = (Raise KeyError, self)).
Proof.
  intros n. split; [|split].
  - intros Hout. unfold get_doc_info, sr_bind, sr_get, sr_lift, node_types_get.
    fold n. destruct (Z.ltb_spec idx 0).
    + destruct (Z.leb_spec 0 (idx + n)); [lia | done].
    + destruct (Z.leb_spec 0 idx); [|lia].
      destruct (Z.ltb_spec idx n); [lia | done].
  - intros Hneg. unfold get_doc_info, sr_bind, sr_get, sr_lift, node_types_get.
    fold n. destruct (Z.ltb_spec idx 0); [|lia].
    destruct (Z.leb_spec 0 (idx + n)); [|lia].
    destruct (Z.ltb_spec (idx + n) n); [|lia]. cbn [andb].
    destruct (lookup_lt_is_Some_2 (node_types (data self)) (Z.to_nat (idx + n)))
      as [t ->]; [lia|].
    unfold node_type_dict_get.
    destruct (node_type_dict (data self) !! t) as [label|]; [|done].
    destruct (String.eqb label "brand"); cbv iota beta;
      rewrite getitem_spec, node_info_get_out by lia; done.
  - intros Hout. unfold get_chunk_info, sr_bind.
    by rewrite getitem_spec, node_info_get_out.
Qed.

Lemma node_id_out_of_range_witness :
  get_doc_info sample_repr id stable_argsort_neg 2 true false witness_kb =
    (Raise IndexError, witness_kb) ∧
  get_doc_info sample_repr id stable_argsort_neg (-1) true false witness_kb =
    (Raise KeyError, witness_kb) ∧
  get_chunk_info sample_repr stable_argsort_neg (-1) "title" witness_kb =
    (Raise KeyError, witness_kb).
Proof.
  split; [|split].
  - apply (node_id_out_of_range sample_repr id stable_argsort_neg witness_kb 2 true false
             "title").
    right. simpl. lia.
  - apply (node_id_out_of_range sample_repr id stable_argsort_neg witness_kb (-1) true false
             "title").
    simpl. lia.
  - apply (node_id_out_of_range sample_repr id stable_argsort_neg witness_kb (-1) true false
             "title").
    left. lia.
Defined.

(** ** Chunks of the other attributes *)

(** X3: [get_chunk_info] on a node [idx] of the knowledge base, for the
    attributes that are neither features, reviews nor Q&A: the
    [description] gives its items joined by single spaces, with the
    spaces at the ends kept, except that an empty description comes back
    as the empty list itself, not as a string; and an attribute the node
    has, whose name mentions none of [feature], [review], [qa] and
    [description], gives the stored value as it is.  The knowledge base
    is left as it was. *)
Theorem chunk_of_other_attributes (py_repr : value → string)
    (argsort_neg : list Z → list nat) (self : KB) (idx : Z)
    (info : gmap string value) (attribute : string) :
  node_info_get (node_info (data self)) idx = Ok info →
  (∀ d, info !! "description" = Some (VStrs d) →
     get_chunk_info py_repr argsort_neg idx "description" self =
       (Ok (if decide (d = []) then VStrs [] else VStr (Py.join " " d)), self)) ∧
  (∀ v, info !! attribute = Some v →
     Py.contains "feature" attribute = false → Py.contains "review" attribute = false →
     Py.contains "qa" attribute = false → Py.contains "description" attribute = false →
     get_chunk_info py_repr argsort_neg idx attribute self = (Ok v, self)).
Proof.
  intros Hget. split.
  - intros d Hd. unfold get_chunk_info, sr_bind, sr_ret, sr_lift, sr_get.
    rewrite getitem_spec, Hget. unfold hasattr.
    rewrite bool_decide_eq_true_2 by (by rewrite Hd). cbn [negb].
    rewrite getitem_spec, Hget. unfold getattr. rewrite Hd.
    unfold chunk_of.
    change (Py.contains "feature" "description") with false.
    change (Py.contains "review" "description") with false.
    change (Py.contains "qa" "description") with false.
    change (Py.contains "description" "description") with true.
    destruct d as [|x d]; [done|]. by rewrite decide_False.
  - intros v Hv H1 H2 H3 H4. unfold get_chunk_info, sr_bind, sr_ret, sr_lift, sr_get.
    rewrite getitem_spec, Hget. unfold hasattr.
    rewrite bool_decide_eq_true_2 by (by rewrite Hv). cbn [negb].
    rewrite getitem_spec, Hget. unfold getattr. rewrite Hv.
    unfold chunk_of. by rewrite H1, H2, H3, H4.
Qed.

Lemma chunk_of_other_attributes_witness :
  get_chunk_info sample_repr stable_argsort_neg 0 "description" witness_kb =
    (Ok (VStrs []), witness_kb) ∧
  get_chunk_info sample_repr stable_argsort_neg 0 "title" witness_kb =
    (Ok (VStr "Tent"), witness_kb).
Proof.
  destruct (chunk_of_other_attributes sample_repr stable_argsort_neg witness_kb 0
              witness_node "title" eq_refl) as (H2 & H3).
  split.
  - apply (H2 []). reflexivity.
  - apply H3; reflexivity.
Defined.

(** ** Comparing brands *)

Lemma drop_dot_com_str (s : string) :
  drop_dot_com (VStr s) =
    Ok (VStr (if ((4 <? Py.len s)%nat && String.eqb (Py.slice_last 4 s) ".com")%bool
              then Py.slice_but_last 4 s else s)).
Proof.
  unfold drop_dot_com. cbn [py_len result_bind].
  by destruct ((4 <? Py.len s)%nat && String.eqb (Py.slice_last 4 s) ".com")%bool.
Qed.

Lemma lower_strip_drop_dot_com (v : value) (x : string) :
  (let? v' := drop_dot_com v in lower_strip v')%result = Ok x ↔
  ∃ s, v = VStr s ∧ x = brand_key s.
Proof.
  destruct v as [|s|l|l|d]; try (split; [done | by intros (? & ? & _)]).
  rewrite drop_dot_com_str. cbn [result_bind lower_strip]. unfold brand_key.
  split; [intros [= <-]; eauto | intros (? & [= <-] & ->); done].
Qed.

(** X4: on ASCII text, [has_brand] never raises and leaves the knowledge
    base as it was.  It answers [True] exactly when [idx] is a node with
    a string [brand] attribute, the argument is a string, and the two
    have the same key: one trailing [".com"] dropped (only when spelled
    in lower case and preceded by something), then lower case, then
    double quotes stripped at both ends.  In particular it is [True] for the brand of the node
    itself, and [False] for every id that is not a node or has no
    brand. *)
Theorem has_brand_compares_keys (self : KB) (idx : Z) (brand : value) :
  (∀ s, brand = VStr s → ascii_text s) →
  (∀ info b, node_info_get (node_info (data self)) idx = Ok info →
             info !! "brand" = Some (VStr b) → ascii_text b) →
  ∃ r,
    has_brand idx brand self = (Ok r, self) ∧
    (r = true ↔
     ∃ info b s,
       node_info_get (node_info (data self)) idx = Ok info ∧
       info !! "brand" = Some (VStr b) ∧ brand = VStr s ∧
       brand_key b = brand_key s) ∧
    (∀ info b,
       node_info_get (node_info (data self)) idx = Ok info →
       info !! "brand" = Some (VStr b) → brand = VStr b → r = true).
Proof.
  intros _ _.
  unfold has_brand, sr_try_return, sr_bind, sr_lift, sr_ret. rewrite getitem_spec.
  destruct (node_info_get (node_info (data self)) idx) as [info|e] eqn:Hget; cycle 1.
  { exists false. split; [done|]. split; [|by intros ? ? [=]].
    split; [done | by intros (? & ? & ? & [=] & _)]. }
  unfold getattr. destruct (info !! "brand") as [vb|] eqn:Hb; cycle 1.
  { exists false. split; [done|]. split.
    - split; [done|]. intros (? & ? & ? & [= <-] & Hb' & _). by rewrite Hb in Hb'.
    - intros ? ? [= <-] Hb'. by rewrite Hb in Hb'. }
  assert (∀ (P : Prop) info' b, Ok info = Ok info' → info' !! "brand" = Some (VStr b) →
            (vb = VStr b → P) → P) as Hvb.
  { intros P ? b [= <-] Hb' HP. rewrite Hb in Hb'. injection Hb' as ->. by apply HP. }
  pose proof (lower_strip_drop_dot_com vb) as Hkb.
  pose proof (lower_strip_drop_dot_com brand) as Hks.
  destruct (drop_dot_com vb) as [vb'|e1] eqn:H1; cbn [result_bind] in Hkb; cycle 1.
  { exists false. split; [done|]. split.
    - split; [done|]. intros (? & b & ? & Hi & Hb' & _).
      apply (Hvb _ _ _ Hi Hb'). intros ->. by rewrite drop_dot_com_str in H1.
    - intros ? b Hi Hb' _.
      apply (Hvb _ _ _ Hi Hb'). intros ->. by rewrite drop_dot_com_str in H1. }
  destruct (drop_dot_com brand) as [s'|e2] eqn:H2; cbn [result_bind] in Hks; cycle 1.
  { exists false. split; [done|]. split.
    - split; [done|]. intros (? & ? & s & _ & _ & -> & _).
      by rewrite drop_dot_com_str in H2.
    - intros ? b _ _ ->. by rewrite drop_dot_com_str in H2. }
  destruct (lower_strip vb') as [x|e3] eqn:H3; cycle 1.
  { exists false. split; [done|]. split.
    - split; [done|]. intros (? & b & ? & Hi & Hb' & _).
      apply (Hvb _ _ _ Hi Hb'). intros ->.
      discriminate (proj2 (Hkb (brand_key b)) (ex_intro _ b (conj eq_refl eq_refl))).
    - intros ? b Hi Hb' _. apply (Hvb _ _ _ Hi Hb'). intros ->.
      discriminate (proj2 (Hkb (brand_key b)) (ex_intro _ b (conj eq_refl eq_refl))). }
  destruct (lower_strip s') as [y|e4] eqn:H4; cycle 1.
  { exists false. split; [done|]. split.
    - split; [done|]. intros (? & ? & s & _ & _ & -> & _).
      discriminate (proj2 (Hks (brand_key s)) (ex_intro _ s (conj eq_refl eq_refl))).
    - intros ? b _ _ ->.
      discriminate (proj2 (Hks (brand_key b)) (ex_intro _ b (conj eq_refl eq_refl))). }
  destruct (proj1 (Hkb x) eq_refl) as (b & -> & ->).
  destruct (proj1 (Hks y) eq_refl) as (s & -> & ->).
  exists (String.eqb (brand_key b) (brand_key s)). split; [done|]. split.
  - rewrite String.eqb_eq. split.
    + intros Heq. by exists info, b, s.
    + intros (? & b' & s2 & Hi & Hb' & [= <-] & Hk).
      apply (Hvb _ _ _ Hi Hb'). by intros [= ->].
  - intros ? b' Hi Hb' [= <-]. apply (Hvb _ _ _ Hi Hb'). intros [= ->].
    by apply String.eqb_eq.
Qed.

Lemma has_brand_compares_keys_witness :
  has_brand 0 (VStr "ACME") witness_kb = (Ok true, witness_kb).
Proof.
  destruct (has_brand_compares_keys witness_kb 0 (VStr "ACME")) as (r & Hr & [_ Hiff] & _).
  { intros s [= <-]. unfold ascii_text. simpl. repeat constructor. }
  { intros info b [= <-] [= <-]. unfold ascii_text. simpl. repeat constructor. }
  rewrite Hr. f_equal. f_equal. apply Hiff.
  exists witness_node, "Acme", "ACME". repeat split; reflexivity.
Defined.

(** ** The relations section *)

Lemma join_cons_nonempty (c : ascii) (e : string) (es : list string) :
  (0 <? Py.len (Py.join EmptyString (String c e :: es)))%nat = true.
Proof. unfold Py.join. by destruct es. Qed.

Lemma rel_titles_lines (self : KB) (l : list Z) (k : nat) :
  Forall (λ i, ∃ n s, node_info_get (node_info (data self)) i = Ok n ∧
                      n !! "title" = Some (VStr s)) l →
  ∃ es, rel_titles k l self = (Ok es, self) ∧
        ((l = [] ∧ es = []) ∨ (l ≠ [] ∧ ∃ c e es', es = String c e :: es')).
Proof.
  intros H. revert k. induction H as [|i l (n & s & Hn & Hs) _ IH]; intros k.
  - exists []. split; [done | by left].
  - destruct (IH (S k)) as (es & Hes & _).
    cbn [rel_titles]. unfold sr_bind, sr_lift, sr_ret, getattr, as_str.
    rewrite getitem_spec, Hn, Hs, Hes. eexists. split; [done|].
    right. split; [done|]. by eexists _, _, _.
Qed.

(** X5: the relations of a node whose related products have titles and
    whose first related brand has a name: [get_rel_info] returns a text
    and leaves the knowledge base as it was; the text is empty exactly
    when the node has no related product and no brand, and otherwise
    starts with the header line [- relations:]. *)
Theorem relations_section (py_repr : value → string) (self : KB) (idx : Z) :
  wf_neighbors self idx →
  ∃ rel,
    get_rel_info py_repr idx self = (Ok rel, self) ∧
    (rel = EmptyString ↔
     get_neighbor_nodes self idx "also_buy" = [] ∧
     get_neighbor_nodes self idx "also_view" = [] ∧
     get_neighbor_nodes self idx "has_brand" = []) ∧
    (rel ≠ EmptyString → ∃ body, rel = "- relations:" +:+ nl +:+ body).
Proof.
  intros [[Hbuy Hview]%Forall_app Hbrand].
  destruct (rel_titles_lines self _ 0 Hbuy) as (es1 & H1 & Hs1).
  destruct (rel_titles_lines self _ 0 Hview) as (es2 & H2 & Hs2).
  unfold get_rel_info, sr_bind, sr_get, sr_lift, sr_ret.
  rewrite H1, H2.
  destruct (get_neighbor_nodes self idx "has_brand") as [|b bs] eqn:Hb.
  - destruct Hs1 as [[-> ->] | [Hn1 (c1 & e1 & es1' & ->)]];
      destruct Hs2 as [[-> ->] | [Hn2 (c2 & e2 & es2' & ->)]];
      rewrite ?join_cons_nonempty; eexists; (split; [reflexivity|]);
      (split; [split; [try done; intros [=] | try done; by intros (? & ? & ?)]
              | try done; intros _; by eexists]).
  - destruct (Hbrand b eq_refl) as (n & Hn & [v Hv]).
    unfold sr_bind, sr_lift, sr_ret, getattr. rewrite getitem_spec, Hn, Hv.
    destruct Hs1 as [[-> ->] | [Hn1 (c1 & e1 & es1' & ->)]];
      destruct Hs2 as [[-> ->] | [Hn2 (c2 & e2 & es2' & ->)]];
      rewrite ?join_cons_nonempty; eexists; (split; [reflexivity|]);
      (split; [split; [intros [=] | by intros (? & ? & ?)] | intros _; by eexists]).
Qed.

Lemma relations_section_witness :
  ∃ rel, get_rel_info sample_repr 0 witness_kb = (Ok rel, witness_kb) ∧
         rel ≠ EmptyString.
Proof.
  destruct (relations_section sample_repr witness_kb 0) as (rel & H & Hiff & _).
  - split.
    + repeat constructor. eexists _, _. split; reflexivity.
    + intros b [= <-]. eexists. split; [reflexivity | by eexists].
  - exists rel. split; [exact H|]. intros Hrel.
    by destruct (proj1 Hiff Hrel) as (_ & _ & ?).
Defined.

(** ** When augmentation succeeds, and the nodes it adds *)

Lemma link_values_inv (kind : string) (l : list (gmap string value)) (values : list string) :
  link_values kind l = Ok values →
  (∀ node v, node ∈ l → node !! kind = Some v → ∃ s, v = VStr s) ∧
  (∀ u, u ∈ values ↔
        ∃ node b, node ∈ l ∧ node !! kind = Some (VStr b) ∧
                  np_str (_process_brand b) = u).
Proof.
  revert values. induction l as [|node l IH]; intros values; simpl.
  - intros [= <-]. split; [by intros ? ? ?%elem_of_nil|].
    intros u. split; [by intros ?%elem_of_nil | by intros (? & ? & ?%elem_of_nil & _)].
  - destruct (node !! kind) as [v|] eqn:Hk.
    + destruct v as [|s| | |]; try done. cbn [_process_brand_value result_bind].
      destruct (link_values kind l) as [xs|] eqn:Hxs; [|done]. cbn [result_bind].
      intros [= <-]. destruct (IH xs eq_refl) as [IH1 IH2]. split.
      * intros n v [->|Hn]%elem_of_cons Hv; [rewrite Hk in Hv; injection Hv as <-; eauto|].
        by eapply IH1.
      * intros u. rewrite elem_of_cons, IH2. split.
        -- intros [->|(n & b & Hn & Hb & Hu)].
           ++ exists node, s. split; [left | done].
           ++ exists n, b. split; [by right | done].
        -- intros (n & b & [->|Hn]%elem_of_cons & Hb & Hu).
           ++ left. rewrite Hk in Hb. by injection Hb as ->.
           ++ right. by exists n, b.
    + intros Hv. destruct (IH values Hv) as [IH1 IH2]. split.
      * intros n v [->|Hn]%elem_of_cons Hv'; [congruence | by eapply IH1].
      * intros u. rewrite IH2. split.
        -- intros (n & b & Hn & Hb & Hu). exists n, b. split; [by right | done].
        -- intros (n & b & [->|Hn]%elem_of_cons & Hb & Hu); [congruence|]. by exists n, b.
Qed.

Lemma link_values_raise (kind : string) (l : list (gmap string value)) (e : exn) :
  link_values kind l = Raise e → e = AttributeError.
Proof.
  induction l as [|node l IH]; simpl; [done|].
  destruct (node !! kind) as [v|]; [|done].
  destruct v as [|s| | |]; try (by intros [= <-]). cbn [_process_brand_value result_bind].
  destruct (link_values kind l); [done|]. cbn [result_bind]. intros [= <-]. by apply IH.
Qed.

(** The node records and the node types after the inner loop, whatever
    the edge arrays are. *)
Lemma add_meta_nodes_info (link_type : string) (cur_n_nodes type_id : nat)
    (indices : list nat) (values : list string) (unique : list string)
    (j : nat) (d : processed_data) :
  length (node_info d) = (cur_n_nodes + j)%nat →
  let d' := add_meta_nodes link_type cur_n_nodes type_id indices values j unique d in
  node_info d' =
    node_info d ++ ((λ u, {[ link_type +:+ "_name" := VStr u ]}) <$> unique) ∧
  node_types d' = node_types d ∧
  node_type_dict d' = node_type_dict d ∧
  edge_type_dict d' = edge_type_dict d.
Proof.
  revert j d. induction unique as [|u unique IH]; intros j d Hlen.
  - simpl. by rewrite app_nil_r.
  - cbn zeta. cbn [add_meta_nodes].
    match goal with
    | |- context [add_meta_nodes _ _ _ _ _ _ _ ?x] => set (d1 := x)
    end.
    assert (node_info d1 = node_info d ++ [{[ link_type +:+ "_name" := VStr u ]}]) as Hni.
    { unfold d1. cbn [node_info]. unfold node_info_insert.
      destruct (Nat.ltb_spec (cur_n_nodes + j) (length (node_info d))); [lia | done]. }
    destruct (IH (S j) d1) as (H1 & H2 & H3 & H4).
    { rewrite Hni, length_app. simpl. lia. }
    rewrite H1, H2, H3, H4, Hni, <- app_assoc. done.
Qed.

Lemma add_meta_link_info (n_e_types n_n_types i : nat) (link_type : string)
    (d : processed_data) :
  match link_values link_type (node_info d) with
  | Ok values =>
      ∃ out,
        add_meta_link n_e_types n_n_types i link_type d = Ok out ∧
        node_info out =
          node_info d ++
            ((λ u, {[ link_type +:+ "_name" := VStr u ]}) <$> np_unique values) ∧
        node_types out =
          node_types d ++ replicate (length (np_unique values)) (n_n_types + i)%nat ∧
        node_type_dict out = <[(n_n_types + i)%nat := link_type]> (node_type_dict d) ∧
        edge_type_dict out =
          <[(n_e_types + i)%nat := "has_" +:+ link_type]> (edge_type_dict d)
  | Raise e => add_meta_link n_e_types n_n_types i link_type d = Raise e
  end.
Proof.
  unfold add_meta_link. destruct (link_values link_type (node_info d)) as [values|e];
    [|done].
  cbn [result_bind].
  match goal with
  | |- context [add_meta_nodes _ _ _ _ _ _ _ ?x] => set (d1 := x)
  end.
  destruct (add_meta_nodes_info link_type (length (node_info d)) (i + n_e_types)
              (link_indices link_type 0 (node_info d)) values (np_unique values) 0 d1)
    as (H1 & H2 & H3 & H4); [simpl; lia|].
  eexists. split; [done|]. cbn [node_info node_types node_type_dict edge_type_dict].
  by rewrite H1, H2, H3, H4.
Qed.

(** X6: [post_process] succeeds exactly when every attribute of a
    requested kind, on every node of the base graph, is a string, and
    when it fails it fails with [AttributeError]: the normalisation of
    brands is applied to the values of every kind, and it starts by
    calling [strip]. *)
Theorem post_process_succeeds_iff (raw_info : processed_data)
    (meta_link_types : list string) :
  ((∃ out, post_process raw_info meta_link_types = Ok out) ↔
   (∀ kind node v, kind ∈ meta_link_types → node ∈ node_info raw_info →
                   node !! kind = Some v → ∃ s, v = VStr s)) ∧
  (∀ e, post_process raw_info meta_link_types = Raise e → e = AttributeError).
Proof.
  unfold post_process.
  generalize (size (edge_type_dict raw_info)) (size (node_type_dict raw_info)) 0%nat.
  intros n_e n_n i. revert i raw_info.
  induction meta_link_types as [|k ks IH]; intros i d.
  { split; [|done]. split; [by intros _ ? ? ? ?%elem_of_nil | by eexists]. }
  cbn [post_process_loop].
  pose proof (add_meta_link_info n_e n_n i k d) as Hlink.
  destruct (link_values k (node_info d)) as [values|e0] eqn:Hv.
  - destruct Hlink as (d1 & -> & Hni & _). cbn [result_bind].
    destruct (IH (S i) d1) as [IH1 IH2]. split; [|exact IH2].
    rewrite IH1. destruct (link_values_inv _ _ _ Hv) as [Hstr _]. split.
    + intros Hks kind node v [->|Hkind]%elem_of_cons Hnode Hval; [by eapply Hstr|].
      apply (Hks kind node v Hkind); [|done]. rewrite Hni, elem_of_app. by left.
    + intros Hall kind node v Hkind. rewrite Hni, elem_of_app.
      intros [Hnode | (u & -> & _)%list_elem_of_fmap] Hval.
      * apply (Hall kind node v); [by right | done | done].
      * apply lookup_singleton_Some in Hval as [_ <-]. eauto.
  - rewrite Hlink. cbn [result_bind]. split.
    + split; [by intros [? ?]|]. intros Hall. exfalso.
      destruct (link_values_ok k (node_info d)) as [? Hok]; [|congruence].
      intros node v. apply Hall. left.
    + intros e [= <-]. by eapply link_values_raise.
Qed.

(** X7: the nodes augmentation adds for one kind, one per distinct
    normalised value as the array holds it (without the NUL characters
    at its end), in increasing order of the values, each the value of
    some node of the base graph; they come after the base nodes, all with
    the new node type.  The values of every kind go through
    [_process_brand]. *)
Theorem meta_nodes_distinct_sorted (raw_info : processed_data) (kind : string) :
  (∀ node v, node ∈ node_info raw_info → node !! kind = Some v → ∃ s, v = VStr s) →
  ∃ out names,
    post_process raw_info [kind] = Ok out ∧
    node_info out =
      node_info raw_info ++ ((λ u, {[ kind +:+ "_name" := VStr u ]}) <$> names) ∧
    node_types out =
      node_types raw_info ++ replicate (length names) (size (node_type_dict raw_info)) ∧
    StronglySorted (λ a b, String.compare a b = Lt) names ∧
    NoDup names ∧
    (∀ u, u ∈ names ↔
          ∃ node b, node ∈ node_info raw_info ∧ node !! kind = Some (VStr b) ∧
                    np_str (_process_brand b) = u).
Proof.
  intros Hstr. destruct (link_values_ok kind (node_info raw_info) Hstr) as [values Hv].
  pose proof (add_meta_link_info (size (edge_type_dict raw_info))
                (size (node_type_dict raw_info)) 0 kind raw_info) as Hlink.
  rewrite Hv in Hlink. destruct Hlink as (out & Hout & Hni & Hnt & _).
  exists out, (np_unique values). split.
  { unfold post_process. cbn [post_process_loop]. by rewrite Hout. }
  split; [done|]. split; [by rewrite Hnt, Nat.add_0_r|].
  split; [apply np_unique_sorted|]. split; [apply np_unique_NoDup|].
  intros u. rewrite np_unique_elem. by apply link_values_inv.
Qed.

Lemma meta_nodes_distinct_sorted_witness :
  ∃ out, post_process sample_graph ["brand"] = Ok out ∧ length (node_info out) = 6%nat.
Proof.
  destruct (meta_nodes_distinct_sorted sample_graph "brand") as (out & names & H & Hni & _).
  - apply sample_graph_strings.
  - exists out. split; [exact H|].
    assert (post_process sample_graph ["brand"] = Ok out) as Hc by exact H.
    vm_compute in Hc. injection Hc as <-. reflexivity.
Defined.

(** ** The entry point *)

(** X8: [get_semistructured_data] knows one benchmark.  For every other
    name it raises [UnboundLocalError] without running the constructor,
    so nothing is read, fetched or written; for ["amazon"] it is the
    constructor on the directory [root/amazon], with the category
    [Sports_and_Outdoors], the meta link type [brand] and an undirected
    graph. *)
Theorem unknown_benchmark_unbound {World : Type}
    (AmazonSemiStruct : string → list string → list string → bool → bool → SR World KB)
    (name root : string) (download_processed : bool) (w : World) :
  (name ≠ "amazon" →
   get_semistructured_data World AmazonSemiStruct name root download_processed w =
     (Raise UnboundLocalError, w)) ∧
  (name = "amazon" →
   get_semistructured_data World AmazonSemiStruct name root download_processed w =
     AmazonSemiStruct (os_path_join root ["amazon"]) ["Sports_and_Outdoors"] ["brand"]
       true download_processed w).
Proof.
  unfold get_semistructured_data, sr_bind, sr_ret, sr_lift. split.
  - intros Hne. by rewrite (proj2 (String.eqb_neq name "amazon") Hne).
  - intros ->. change (String.eqb "amazon" "amazon") with true. cbv iota.
    unfold sr_bind, sr_ret.
    by destruct (AmazonSemiStruct _ _ _ _ _ w) as [[kb|e] w'].
Qed.

Lemma unknown_benchmark_unbound_witness :
  get_semistructured_data unit
    (λ _ _ _ _ _ w, (Ok (sample_kb 25 (sample_product [] [])), w))
    "prime" "data/" true tt = (Raise UnboundLocalError, tt) ∧
  os_path_join "data/" ["amazon"] = "data/amazon".
Proof.
  split; [|reflexivity].
  apply (unknown_benchmark_unbound
           (λ _ _ _ _ _ w, (Ok (sample_kb 25 (sample_product [] [])), w))
           "prime" "data/" true tt).
  discriminate.
Defined.
